(** * SendToVault plugin: the synchronisation core of [src/main.ts]

    A shallow embedding of the plugin class [SendToVaultPlugin]:
    registration ([registerWithService]), the polling loop ([startPolling],
    [stopPolling], [poll]) and note materialisation ([saveNote]).

    Conventions of the embedding.
    - The plugin object and the parts of the host it touches (the vault, the
      window's interval timers, [document.hidden]) form one record, [World].
      Output-only effects (requests sent, notices, modals, files opened in a
      leaf, [saveData], the ribbon badge, the quota panel, [console.error])
      are appended to [trace].
    - An [async] method is a computation in the monad [M]: it takes a world
      and gives back a completion ([Return] or [Throw]) and the new world:
      the call taken alone, nothing else running between its [await]s.
      [poll] is called without being awaited and has no guard against a
      second call while one waits for its response, so polls can overlap:
      [poll_send] and [poll_settle] are the two halves of a poll around
      that wait, and [run_steps] runs polls whose halves interleave.
    - What the host answers (the HTTP response, whether a vault operation is
      rejected) is an input of the method, given by an environment record.
    - JavaScript numbers are doubles. The fields that hold one are [Z], for
      the integers they hold; [increment] is [++] on them, which is exact
      only up to 2^53 and rounds beyond. The local counter of a loop over
      an array stays far below that, and doubling and [Math.min] are exact.
    - Strings are sequences of code units; the characters the source inspects
      are ASCII.
    - [Date] and [JSON.stringify] are parameters of the sections that use
      them; [IsoDate] and [JsonText] give instances for the examples.

    The definitions come first: the embedding of the source, then the
    relations and functions the statements are written with, then concrete
    worlds. The properties follow: [saveNote], the loop over the notes, one
    poll, sequences of polls, registration, and runs on concrete worlds. *)

From Stdlib Require Import ZArith Ascii String List Bool Lia.
From stdpp Require Import base option gmap strings.

Local Open Scope Z_scope.

(** ** JavaScript strings *)

Module Js.

(** [s.includes(needle)] *)
Fixpoint includes (needle s : string) : bool :=
  String.prefix needle s ||
  match s with
  | EmptyString => false
  | String _ s' => includes needle s'
  end.

(** [!s] for a string-or-undefined value: the empty string, [undefined] and
    [null] are falsy. *)
Definition falsy (o : option string) : bool :=
  match o with
  | None => true
  | Some s => String.eqb s ""
  end.

Definition truthy (o : option string) : bool := negb (falsy o).

(** [a || b] on strings *)
Definition or_else (a b : string) : string :=
  if String.eqb a "" then b else a.

(** Replace every code unit satisfying [p] by [c]:
    [s.replace(/[...]/g, c)] for a character class. *)
Fixpoint replace_class (p : ascii -> bool) (c : ascii) (s : string) : string :=
  match s with
  | EmptyString => EmptyString
  | String a s' => String (if p a then c else a) (replace_class p c s')
  end.

(** The part of a path after its last slash: an abstract file's [name]. *)
Fixpoint basename_from (acc : string) (s : string) : string :=
  match s with
  | EmptyString => acc
  | String a s' =>
      if Ascii.eqb a "/" then basename_from s' s' else basename_from acc s'
  end.

Definition basename (s : string) : string := basename_from s s.

Fixpoint occurs (c : ascii) (s : string) : bool :=
  match s with
  | EmptyString => false
  | String a s' => Ascii.eqb a c || occurs c s'
  end.

End Js.

(** ** Data model (the interfaces at the top of [src/main.ts]) *)

Record SendToVaultSettings := {
  uid : string;
  jwt : string;
  alias : string;
  lastSyncIso : string;
  autoOpenImported : bool;
  quotaUsed : Z;
  quotaLimit : Z;
  importsThisMonth : Z;
  vaultIdentifier : string
}.

Definition DEFAULT_SETTINGS : SendToVaultSettings := {|
  uid := "";
  jwt := "";
  alias := "";
  lastSyncIso := "";
  autoOpenImported := true;
  quotaUsed := 0;
  quotaLimit := 100;
  importsThisMonth := 0;
  vaultIdentifier := ""
|}.

Record Note := {
  id : string;
  title : string;
  markdown : string;
  created_iso : string
}.

(** [notes = None] stands for a response whose [notes] is missing or [null];
    [quota_used] and [quota_limit] are the optional fields. *)
Record DownloadResponse := {
  notes : option (list Note);
  over_quota : bool;
  quota_used : option Z;
  quota_limit : option Z
}.

(** [src/ui/components.ts]; a field the response lacks is [None]. *)
Record RegistrationResponse := {
  email_address : option string;
  passkey : option string;
  vault_id : option string;
  created_at : option string
}.

(** ** The host *)

Record JsError := { message : string }.

Inductive Entry :=
| FileEntry (data : string)
| FolderEntry.

(** What [getAbstractFileByPath] hands out. *)
Record TAbstractFile := {
  path : string;
  is_folder : bool
}.

Definition name (f : TAbstractFile) : string := Js.basename (path f).

Inductive Modal :=
| FirstRunModal (data : RegistrationResponse)
| PaywallModal.

Inductive Request :=
| RegisterRequest (url client_version vault_identifier : string)
| DownloadRequest (vault_identifier passkey since : string).

Inductive Event :=
| EvRequest (r : Request)
| EvNotice (msg : string)
| EvModal (m : Modal)
| EvOpenFile (p : string)
| EvSaveData (s : SendToVaultSettings)
| EvBadge (text : option Z)
| EvQuotaPanel (used limit imports : Z)
| EvConsoleError (e : JsError)
| EvConsoleErrorNote (note : Note).

(** The plugin's fields, then the host state it reads and writes. *)
Record World := {
  settings : SendToVaultSettings;
  pollingInterval : option nat;
  retryDelay : Z;
  maxRetryDelay : Z;
  hidden : bool;
  vault : gmap string Entry;
  intervals : gmap nat Z;
  lastHandle : nat;
  trace : list Event
}.

(** A freshly constructed plugin: the field initialisers of the class. *)
Definition initial_plugin (s : SendToVaultSettings) (v : gmap string Entry) : World := {|
  settings := s;
  pollingInterval := None;
  retryDelay := 10 * 1000;
  maxRetryDelay := 30 * 60 * 1000;
  hidden := false;
  vault := v;
  intervals := ∅;
  lastHandle := 0;
  trace := []
|}.

(** *** Field updates *)

Definition with_settings (s : SendToVaultSettings) (w : World) : World := {|
  settings := s;
  pollingInterval := pollingInterval w;
  retryDelay := retryDelay w;
  maxRetryDelay := maxRetryDelay w;
  hidden := hidden w;
  vault := vault w;
  intervals := intervals w;
  lastHandle := lastHandle w;
  trace := trace w
|}.

Definition with_pollingInterval (p : option nat) (w : World) : World := {|
  settings := settings w;
  pollingInterval := p;
  retryDelay := retryDelay w;
  maxRetryDelay := maxRetryDelay w;
  hidden := hidden w;
  vault := vault w;
  intervals := intervals w;
  lastHandle := lastHandle w;
  trace := trace w
|}.

Definition with_retryDelay (d : Z) (w : World) : World := {|
  settings := settings w;
  pollingInterval := pollingInterval w;
  retryDelay := d;
  maxRetryDelay := maxRetryDelay w;
  hidden := hidden w;
  vault := vault w;
  intervals := intervals w;
  lastHandle := lastHandle w;
  trace := trace w
|}.

(** The host hides or shows the document. *)
Definition with_hidden (b : bool) (w : World) : World := {|
  settings := settings w;
  pollingInterval := pollingInterval w;
  retryDelay := retryDelay w;
  maxRetryDelay := maxRetryDelay w;
  hidden := b;
  vault := vault w;
  intervals := intervals w;
  lastHandle := lastHandle w;
  trace := trace w
|}.

Definition with_vault (v : gmap string Entry) (w : World) : World := {|
  settings := settings w;
  pollingInterval := pollingInterval w;
  retryDelay := retryDelay w;
  maxRetryDelay := maxRetryDelay w;
  hidden := hidden w;
  vault := v;
  intervals := intervals w;
  lastHandle := lastHandle w;
  trace := trace w
|}.

Definition with_intervals (t : gmap nat Z) (h : nat) (w : World) : World := {|
  settings := settings w;
  pollingInterval := pollingInterval w;
  retryDelay := retryDelay w;
  maxRetryDelay := maxRetryDelay w;
  hidden := hidden w;
  vault := vault w;
  intervals := t;
  lastHandle := h;
  trace := trace w
|}.

Definition with_event (e : Event) (w : World) : World := {|
  settings := settings w;
  pollingInterval := pollingInterval w;
  retryDelay := retryDelay w;
  maxRetryDelay := maxRetryDelay w;
  hidden := hidden w;
  vault := vault w;
  intervals := intervals w;
  lastHandle := lastHandle w;
  trace := trace w ++ [e]
|}.

Definition set_credentials (u j a : string) (s : SendToVaultSettings) : SendToVaultSettings := {|
  uid := u;
  jwt := j;
  alias := a;
  lastSyncIso := lastSyncIso s;
  autoOpenImported := autoOpenImported s;
  quotaUsed := quotaUsed s;
  quotaLimit := quotaLimit s;
  importsThisMonth := importsThisMonth s;
  vaultIdentifier := vaultIdentifier s
|}.

Definition set_lastSyncIso (c : string) (s : SendToVaultSettings) : SendToVaultSettings := {|
  uid := uid s;
  jwt := jwt s;
  alias := alias s;
  lastSyncIso := c;
  autoOpenImported := autoOpenImported s;
  quotaUsed := quotaUsed s;
  quotaLimit := quotaLimit s;
  importsThisMonth := importsThisMonth s;
  vaultIdentifier := vaultIdentifier s
|}.

Definition set_quotaUsed (q : Z) (s : SendToVaultSettings) : SendToVaultSettings := {|
  uid := uid s;
  jwt := jwt s;
  alias := alias s;
  lastSyncIso := lastSyncIso s;
  autoOpenImported := autoOpenImported s;
  quotaUsed := q;
  quotaLimit := quotaLimit s;
  importsThisMonth := importsThisMonth s;
  vaultIdentifier := vaultIdentifier s
|}.

Definition set_quotaLimit (q : Z) (s : SendToVaultSettings) : SendToVaultSettings := {|
  uid := uid s;
  jwt := jwt s;
  alias := alias s;
  lastSyncIso := lastSyncIso s;
  autoOpenImported := autoOpenImported s;
  quotaUsed := quotaUsed s;
  quotaLimit := q;
  importsThisMonth := importsThisMonth s;
  vaultIdentifier := vaultIdentifier s
|}.

Definition set_importsThisMonth (n : Z) (s : SendToVaultSettings) : SendToVaultSettings := {|
  uid := uid s;
  jwt := jwt s;
  alias := alias s;
  lastSyncIso := lastSyncIso s;
  autoOpenImported := autoOpenImported s;
  quotaUsed := quotaUsed s;
  quotaLimit := quotaLimit s;
  importsThisMonth := n;
  vaultIdentifier := vaultIdentifier s
|}.

(** ** The monad of [async] methods: state and exceptions *)

Inductive Completion (A : Type) :=
| Return (a : A)
| Throw (e : JsError).
Arguments Return {A} a.
Arguments Throw {A} e.

Definition M (A : Type) : Type := World -> Completion A * World.

Definition ret {A} (a : A) : M A := fun w => (Return a, w).

Definition throw {A} (e : JsError) : M A := fun w => (Throw e, w).

Definition bind {A B} (m : M A) (k : A -> M B) : M B :=
  fun w =>
    match m w with
    | (Return a, w') => k a w'
    | (Throw e, w') => (Throw e, w')
    end.

(** [try { m } catch (error) { h error }] *)
Definition try_catch {A} (m : M A) (h : JsError -> M A) : M A :=
  fun w =>
    match m w with
    | (Return a, w') => (Return a, w')
    | (Throw e, w') => h e w'
    end.

Definition get {A} (f : World -> A) : M A := fun w => (Return (f w), w).

Definition update (f : World -> World) : M unit := fun w => (Return tt, f w).

Definition when (b : bool) (m : M unit) : M unit := if b then m else ret tt.

Declare Scope js_scope.
Delimit Scope js_scope with js.
Notation "'let*' x ':=' m 'in' k" := (bind m (fun x => k))
  (at level 10, x name, m at level 100, k at level 200) : js_scope.
Notation "m ;; k" := (bind m (fun _ => k))
  (at level 100, k at level 200, right associativity) : js_scope.
Local Open Scope js_scope.

Definition emit (e : Event) : M unit := update (with_event e).

Definition Notice (msg : string) : M unit := emit (EvNotice msg).

Definition console_error (e : JsError) : M unit := emit (EvConsoleError e).

(** [console.error('... Failed note data:', note)] *)
Definition console_error_note (note : Note) : M unit := emit (EvConsoleErrorNote note).

Definition update_settings (f : SendToVaultSettings -> SendToVaultSettings) : M unit :=
  update (fun w => with_settings (f (settings w)) w).

(** A host operation the environment may reject: [Some msg] is a rejection
    with an [Error] of that message. *)
Definition rejected_by_host (fault : option string) : M unit :=
  match fault with
  | Some msg => throw {| message := msg |}
  | None => ret tt
  end.

(** ** The vault

    The operations of Obsidian's [Vault] that the plugin calls. They belong
    to the host, not to the plugin: here the vault maps a path to a file's
    content or to a folder, and each operation that writes may be rejected
    by the environment (a denied write, an I/O error), with the message of
    the [Error] it rejects with. Besides, [createFolder] and [create] reject
    a path that is taken, and [modify] rejects what is not a file.

    [NoteIO] holds what the host answers to the operations [saveNote]
    performs for one note. *)

Record NoteIO := {
  createFolder_fault : option string;
  modify_fault : option string;
  create_fault : option string;
  openFile_fault : option string
}.

Definition no_fault : NoteIO := {|
  createFolder_fault := None;
  modify_fault := None;
  create_fault := None;
  openFile_fault := None
|}.

Definition abstract_file (p : string) (e : Entry) : TAbstractFile :=
  match e with
  | FileEntry _ => {| path := p; is_folder := false |}
  | FolderEntry => {| path := p; is_folder := true |}
  end.

Definition getAbstractFileByPath (p : string) : M (option TAbstractFile) :=
  get (fun w => abstract_file p <$> (vault w !! p)).

Definition createFolder (fault : option string) (p : string) : M unit :=
  rejected_by_host fault ;;
  let* existing := getAbstractFileByPath p in
  match existing with
  | Some _ => throw {| message := "Folder already exists." |}
  | None => update (fun w => with_vault (<[p := FolderEntry]> (vault w)) w)
  end.

Definition create (fault : option string) (p data : string) : M TAbstractFile :=
  rejected_by_host fault ;;
  let* existing := getAbstractFileByPath p in
  match existing with
  | Some _ => throw {| message := "File already exists." |}
  | None =>
      update (fun w => with_vault (<[p := FileEntry data]> (vault w)) w) ;;
      ret {| path := p; is_folder := false |}
  end.

Definition modify (fault : option string) (f : TAbstractFile) (data : string) : M unit :=
  rejected_by_host fault ;;
  let* e := get (fun w => vault w !! path f) in
  match e with
  | Some (FileEntry _) =>
      update (fun w => with_vault (<[path f := FileEntry data]> (vault w)) w)
  | _ => throw {| message := "Not a file." |}
  end.

(** [workspace.getUnpinnedLeaf().openFile(file)] *)
Definition openFile (fault : option string) (f : TAbstractFile) : M unit :=
  rejected_by_host fault ;;
  emit (EvOpenFile (path f)).

(** ** [saveNote] *)

(** The character class of the regular expression that [saveNote] applies
    to the title: the two angle brackets, the colon, the double quote (034),
    the slash, the backslash (092), the bar, the question mark and the
    star. *)
Definition illegal_in_filename (c : ascii) : bool :=
  existsb (Ascii.eqb c) ["<"; ">"; ":"; "034"; "/"; "092"; "|"; "?"; "*"]%char.

Definition sanitize (t : string) : string :=
  Js.replace_class illegal_in_filename "_" t.

Definition inboxFolder : string := "Inbox".

(** The path [`${inboxFolder}/${sanitizedTitle}.md`] of [saveNote]. *)
Definition note_filename (note : Note) : string :=
  inboxFolder +:+ "/" +:+ sanitize (title note) +:+ ".md".

Definition saveNote (io : NoteIO) (note : Note) : M unit :=
  (* Ensure Inbox folder exists *)
  let* inbox := getAbstractFileByPath inboxFolder in
  match inbox with
  | None => createFolder (createFolder_fault io) inboxFolder
  | Some _ => ret tt
  end ;;
  (* Sanitize filename *)
  let sanitizedTitle := sanitize (title note) in
  let filename := note_filename note in
  try_catch
    (let* existingFile := getAbstractFileByPath filename in
     let create_new :=
       (* Create new file *)
       let* file := create (create_fault io) filename (markdown note) in
       (* Auto-open if setting is enabled *)
       let* auto := get (fun w => autoOpenImported (settings w)) in
       when auto (openFile (openFile_fault io) file) in
     match existingFile with
     | Some f =>
         if String.eqb (name f) (sanitizedTitle +:+ ".md") then
           (* Overwrite if user hasn't renamed the file *)
           modify (modify_fault io) f (markdown note)
         else create_new
     | None => create_new
     end ;;
     Notice ("Imported: " +:+ title note))
    (fun error =>
       console_error error ;;
       Notice ("Failed to save note: " +:+ title note)).

(** ** Settings persistence and the two views of the quota *)

Definition saveSettings (fault : option string) : M unit :=
  rejected_by_host fault ;;
  let* s := get settings in
  emit (EvSaveData s).

Definition updateRibbonBadge : M unit :=
  let* n := get (fun w => importsThisMonth (settings w)) in
  emit (EvBadge (if 0 <? n then Some n else None)).

Definition updateQuotaPanel : M unit :=
  let* s := get settings in
  emit (EvQuotaPanel (quotaUsed s) (quotaLimit s) (importsThisMonth s)).

(** ** Requests *)

Inductive Body (A : Type) :=
| NotJson (msg : string)
| Json (data : A).
Arguments NotJson {A} msg.
Arguments Json {A} data.

Inductive Fetch (A : Type) :=
| Rejected (msg : string)
| Responded (body : Body A).
Arguments Rejected {A} msg.
Arguments Responded {A} body.

(** The promise of a request settles: it is rejected when there is no
    connection or the status is 400 or above. *)
Definition settle {A} (answer : Fetch A) : M (Body A) :=
  match answer with
  | Rejected msg => throw {| message := msg |}
  | Responded b => ret b
  end.

(** [await requestUrl({...})]: the request is sent, then its promise
    settles. *)
Definition requestUrl {A} (r : Request) (answer : Fetch A) : M (Body A) :=
  emit (EvRequest r) ;;
  settle answer.

(** [response.json], read as an object: throws on a body that is no JSON
    object. *)
Definition json {A} (b : Body A) : M A :=
  match b with
  | NotJson msg => throw {| message := msg |}
  | Json d => ret d
  end.

(** ** Timers *)

Definition setInterval (delay : Z) : M nat :=
  let* h := get (fun w => S (lastHandle w)) in
  update (fun w => with_intervals (<[h := delay]> (intervals w)) h w) ;;
  ret h.

Definition clearInterval (h : nat) : M unit :=
  update (fun w => with_intervals (delete h (intervals w)) (lastHandle w) w).

Definition stopPolling : M unit :=
  let* p := get pollingInterval in
  match p with
  | Some (S h) =>
      clearInterval (S h) ;;
      update (with_pollingInterval None)
  | _ => ret tt
  end.

(** ** The polling loop *)

(** The notes of a response; none when [notes] is missing. *)
Definition notes_of (data : DownloadResponse) : list Note :=
  default [] (notes data).

Record PollEnv := {
  now : Z;
  fetched : Fetch DownloadResponse;
  io : nat -> NoteIO;
  saveData_fault : option string
}.

Section Sync.

(** The two operations of JavaScript's [Date] the source uses:
    [new Date(s).getTime()], with [None] for the NaN of an invalid date,
    and [new Date(ms).toISOString()]. *)
Variable Date_getTime : string -> option Z.
Variable Date_toISOString : Z -> string.

(** [new Date(a) > new Date(b)]: a comparison with NaN is false. *)
Definition later_than (a b : string) : bool :=
  match Date_getTime a, Date_getTime b with
  | Some x, Some y => y <? x
  | _, _ => false
  end.

(** [new Date(a) <= new Date(b)], both dates valid. *)
Definition date_leb (a b : string) : bool :=
  match Date_getTime a, Date_getTime b with
  | Some x, Some y => x <=? y
  | _, _ => false
  end.

(** A date string that is not empty and parses. *)
Definition dated (c : string) : bool :=
  negb (String.eqb c "") && bool_decide (is_Some (Date_getTime c)).

(** Track latest note date *)
Definition track_latest (latestNoteDate : option string) (note : Note) : option string :=
  match latestNoteDate with
  | None => Some (created_iso note)
  | Some l =>
      if String.eqb l "" || later_than (created_iso note) l
      then Some (created_iso note)
      else latestNoteDate
  end.

(** [x++] on a number that holds an integer. Up to 2^53 in magnitude a
    double holds every integer and the sum is exact. From there to 2^54 it
    holds the even ones only: [x + 1] lies half way between [x] and [x + 2]
    and is rounded to the one whose significand is even, which is [x + 2]
    when [x] is 2 modulo 4. Beyond 2^54 the doubles are 4 or more apart and
    [x + 1] is rounded back to [x]. *)
Definition increment (x : Z) : Z :=
  if (- 2 ^ 53 <=? x) && (x <? 2 ^ 53) then x + 1
  else if (Z.abs x <? 2 ^ 54) && (x mod 4 =? 2) then x + 2
  else x.

(** [k] increments from [n] stay among the integers where [++] is exact. *)
Definition counts_exactly (n k : Z) : bool :=
  (- 2 ^ 53 <=? n) && (n + k <=? 2 ^ 53).

(** The [for] loop of [poll] over [data.notes.entries()], with its two
    local variables. [processedCount] starts at 0 in [poll] and counts at
    most the elements of one array: its [++] is exact. *)
Fixpoint process_notes (io : nat -> NoteIO) (index : nat) (ns : list Note)
    (processedCount : Z) (latestNoteDate : option string) : M (Z * option string) :=
  match ns with
  | [] => ret (processedCount, latestNoteDate)
  | note :: rest =>
      let* r :=
        try_catch
          (saveNote (io index) note ;;
           update_settings (fun s => set_importsThisMonth (increment (importsThisMonth s)) s) ;;
           ret (processedCount + 1, track_latest latestNoteDate note))
          (fun error =>
             console_error error ;;
             console_error_note note ;;
             ret (processedCount, latestNoteDate)) in
      process_notes io (S index) rest (fst r) (snd r)
  end.

Definition since (n : Z) (s : SendToVaultSettings) : string :=
  Js.or_else (lastSyncIso s) (Date_toISOString (n - 24 * 60 * 60 * 1000)).

Definition download_request (env : PollEnv) (w : World) : Event :=
  EvRequest (DownloadRequest (vaultIdentifier (settings w)) (jwt (settings w))
                             (since (now env) (settings w))).

(** The loop on what the response holds as [notes]. *)
Definition notes_stage (env : PollEnv) (data : DownloadResponse) : M (Z * option string) :=
  match notes data with
  | Some ns => process_notes (io env) 0 ns 0 None
  | None => ret (0, None)
  end.

(** The [try] block of [poll] from the response on; the result is its two
    local variables [processedCount] and [latestNoteDate]. *)
Definition poll_process (env : PollEnv) (response : Body DownloadResponse)
    : M (Z * option string) :=
  let* data := json response in
  (* Update quota information *)
  match quota_used data with
  | Some q => update_settings (set_quotaUsed q)
  | None => ret tt
  end ;;
  match quota_limit data with
  | Some q => update_settings (set_quotaLimit q)
  | None => ret tt
  end ;;
  (* Process notes *)
  let* r :=
    match notes data with
    | Some ns => process_notes (io env) 0 ns 0 None
    | None => ret (0, None)
    end in
  let processedCount := fst r in
  let latestNoteDate := snd r in
  (* Update last sync time if we processed notes *)
  match latestNoteDate with
  | Some l =>
      when ((0 <? processedCount) && negb (String.eqb l ""))
           (update_settings (set_lastSyncIso l))
  | None => ret tt
  end ;;
  saveSettings (saveData_fault env) ;;
  updateRibbonBadge ;;
  updateQuotaPanel ;;
  (* Show paywall if over quota *)
  when (over_quota data) (emit (EvModal PaywallModal)) ;;
  (* Reset retry delay on success *)
  update (with_retryDelay (2 * 60 * 1000)) ;;
  ret (processedCount, latestNoteDate).

(** The [try] block of [poll]: the request, then the above. *)
Definition poll_attempt (env : PollEnv) : M (Z * option string) :=
  let* s := get settings in
  let* response :=
    requestUrl (DownloadRequest (vaultIdentifier s) (jwt s) (since (now env) s))
               (fetched env) in
  poll_process env response.

(** The [catch] block of [poll]. *)
Definition poll_failed (error : JsError) : M unit :=
  console_error error ;;
  (* the full error details *)
  console_error error ;;
  (* Exponential backoff *)
  update (fun w => with_retryDelay (Z.min (retryDelay w * 2) (maxRetryDelay w)) w).

Definition poll (env : PollEnv) : M unit :=
  (* Rate limit if Obsidian is not active *)
  let* h := get hidden in
  if h then ret tt
  else
    try_catch
      (poll_attempt env ;; ret tt)
      poll_failed.

(** [startPolling] calls [poll] without awaiting it.  Until its first
    [await] (the request) [poll] writes no state, and the promise of
    [requestUrl] settles after [startPolling] has returned: the interval
    is set with the delay as it is before that poll, whose effects
    follow. *)
Definition startPolling (env : PollEnv) : M unit :=
  stopPolling ;;
  let* d := get retryDelay in
  let* h := setInterval d in
  update (with_pollingInterval (Some h)) ;;
  (* Immediate first poll *)
  poll env.

(** The callback of the interval. *)
Definition interval_tick (env : PollEnv) : M unit := poll env.

(** The [visibilitychange] handler. *)
Definition visibilityChangeHandler (env : PollEnv) : M unit :=
  let* h := get hidden in
  if h then ret tt else poll env.

Definition forceSync (env : PollEnv) : M unit :=
  Notice "Syncing with SendToVault..." ;;
  try_catch
    (poll env ;; Notice "Sync completed!")
    (fun error =>
       console_error error ;;
       Notice "Sync failed. Please try again.").

(** A sequence of polls, each with what the host answers to it, and each
    over when the next one is called: polls that do not overlap. Polls
    that do are runs of [run_steps], below. *)
Fixpoint polls (envs : list PollEnv) (w : World) : World :=
  match envs with
  | [] => w
  | env :: rest => polls rest (snd (poll env w))
  end.

(** The note is dated at or after the cursor; any note is, while no
    cursor is set. *)
Definition not_before (cursor : string) (note : Note) : bool :=
  String.eqb cursor "" || date_leb cursor (created_iso note).

(** The response keeps to the [since] of its request: it has no note from
    before the cursor. *)
Definition answers_since (env : PollEnv) (w : World) : bool :=
  match fetched env with
  | Responded (Json data) =>
      forallb (not_before (lastSyncIso (settings w))) (notes_of data)
  | _ => true
  end.

Fixpoint all_answer_since (envs : list PollEnv) (w : World) : bool :=
  match envs with
  | [] => true
  | env :: rest => answers_since env w && all_answer_since rest (snd (poll env w))
  end.

(** The order on cursors: the unset cursor first, then by date. *)
Definition cursor_leb (a b : string) : bool :=
  String.eqb a b || String.eqb a "" || date_leb a b.

(** The delay of the timer that schedules the next poll. *)
Definition scheduled_delay (w : World) : option Z :=
  h ← pollingInterval w; intervals w !! h.

(** *** Polls in flight

    [startPolling], the interval's callback and the [visibilitychange]
    handler call [poll] and do not await it, and [poll] keeps no record of
    a call under way. Its first [await] is on the request: until the
    promise settles the event loop runs other callbacks, among them
    further calls of [poll]. A poll is modelled in two halves around that
    [await]. *)

(** Up to the [await]: the check of [document.hidden] and the request, with
    the [since] of the cursor as it is now. The result tells whether a
    request is on its way. *)
Definition poll_send (env : PollEnv) : M bool :=
  (* Rate limit if Obsidian is not active *)
  let* h := get hidden in
  if h then ret false
  else
    let* s := get settings in
    emit (EvRequest (DownloadRequest (vaultIdentifier s) (jwt s) (since (now env) s))) ;;
    ret true.

(** From the [await] on: the promise settles, and the rest of the [try]
    block runs on the plugin as it is by then. It has [await]s of its own
    (the vault, [saveData]); it is run here as a whole. *)
Definition poll_settle (env : PollEnv) : M unit :=
  try_catch
    (let* response := settle (fetched env) in
     poll_process env response ;;
     ret tt)
    poll_failed.

(** A poll is entered, under a name and with what the host will answer;
    the request of a poll settles. *)
Inductive Step :=
| Begin (id : nat) (env : PollEnv)
| Settle (id : nat).

(** The world, and the polls that wait for their response. *)
Record Running := {
  world : World;
  in_flight : gmap nat PollEnv
}.

Definition at_rest (w : World) : Running :=
  {| world := w; in_flight := ∅ |}.

(** A name stands for one poll: a [Begin] under a name that is in flight,
    and a [Settle] of one that is not, are no steps of the program and
    change nothing. *)
Definition step (s : Step) (r : Running) : Running :=
  match s with
  | Begin id env =>
      match in_flight r !! id with
      | Some _ => r
      | None =>
          match poll_send env (world r) with
          | (Return true, w) => {| world := w; in_flight := <[id := env]> (in_flight r) |}
          | (_, w) => {| world := w; in_flight := in_flight r |}
          end
      end
  | Settle id =>
      match in_flight r !! id with
      | Some env =>
          {| world := snd (poll_settle env (world r));
             in_flight := delete id (in_flight r) |}
      | None => r
      end
  end.

Fixpoint run_steps (steps : list Step) (r : Running) : Running :=
  match steps with
  | [] => r
  | s :: rest => run_steps rest (step s r)
  end.

(** No poll is entered while another is in flight. *)
Fixpoint one_at_a_time (steps : list Step) (r : Running) : bool :=
  match steps with
  | [] => true
  | s :: rest =>
      match s with
      | Begin _ _ => bool_decide (in_flight r = ∅)
      | Settle _ => true
      end
      && one_at_a_time rest (step s r)
  end.

(** Every response keeps to the [since] of its request: it has no note
    from before the cursor in force when the poll was entered. A poll
    entered while the document is hidden sends no request. *)
Fixpoint answered_since (steps : list Step) (r : Running) : bool :=
  match steps with
  | [] => true
  | s :: rest =>
      match s with
      | Begin _ env => hidden (world r) || answers_since env (world r)
      | Settle _ => true
      end
      && answered_since rest (step s r)
  end.

(** The one poll in flight, if any, was answered from the cursor as it
    still is. *)
Definition alone_in_flight (r : Running) : Prop :=
  forall id env, in_flight r !! id = Some env ->
    in_flight r = {[ id := env ]} /\ answers_since env (world r) = true.

(** The polls of a list one after the other, each settled before the next
    is entered. *)
Fixpoint in_turn (id : nat) (envs : list PollEnv) : list Step :=
  match envs with
  | [] => []
  | env :: rest => Begin id env :: Settle id :: in_turn (S id) rest
  end.

End Sync.

(** ** Registration *)

Record RegisterEnv := {
  answer : Fetch RegistrationResponse;
  register_saveData_fault : option string
}.

Section Registration.

(** [this.manifest.version] and [JSON.stringify] on a response. *)
Variable manifest_version : string.
Variable JSON_stringify : RegistrationResponse -> string.

(** A required field as the validation sees it: there and not empty. *)
Definition present (field : option string) : option string :=
  match field with
  | Some s => if String.eqb s "" then None else Some s
  | None => None
  end.

Definition invalid_response (data : RegistrationResponse) : JsError :=
  {| message := "Invalid response data: " +:+ JSON_stringify data |}.

Definition register_url (rotate : bool) : string :=
  if rotate
  then "https://api.sendtovault.com/v1/register?rotate=true"
  else "https://api.sendtovault.com/v1/register".

Definition register_request (rotate : bool) (w : World) : Event :=
  EvRequest (RegisterRequest (register_url rotate) manifest_version
                             (vaultIdentifier (settings w))).

(** The [try] block of [registerWithService]. *)
Definition register_attempt (env : RegisterEnv) (rotate : bool) : M unit :=
  let url := register_url rotate in
  let* s := get settings in
  let* response :=
    requestUrl (RegisterRequest url manifest_version (vaultIdentifier s))
               (answer env) in
  let* data := json response in
  (* Validate response data *)
  match present (email_address data), present (passkey data), present (vault_id data) with
  | Some email, Some key, Some vid =>
      (* Map new API response to existing settings structure *)
      update_settings (set_credentials vid key email) ;;
      saveSettings (register_saveData_fault env) ;;
      if negb rotate
      then emit (EvModal (FirstRunModal data))
      else Notice "Email alias rotated successfully!"
  | _, _, _ => throw (invalid_response data)
  end.

(** The message the [catch] block shows. *)
Definition errorMessage (error : JsError) : string :=
  "Failed to register with SendToVault." +:+
  (if Js.includes "fetch" (message error) then
     " Network connection failed. Check your internet connection."
   else if Js.includes "Invalid response" (message error) then
     " Server returned invalid data."
   else if Js.includes "status" (message error) then
     " Server error: " +:+ message error
   else
     " Error: " +:+ message error).

Definition registerWithService (env : RegisterEnv) (rotate : bool) : M unit :=
  try_catch
    (register_attempt env rotate)
    (fun error =>
       console_error error ;;
       Notice (errorMessage error) ;;
       (* Also log the full error details *)
       console_error error).

Definition rotateAlias (env : RegisterEnv) : M unit :=
  registerWithService env true.

End Registration.

(** ** An instance of [Date] for the ISO 8601 format of [toISOString]

    [YYYY-MM-DDTHH:mm:ss.sssZ], years 0000 to 9999; any other string is an
    invalid date here. *)

Module IsoDate.

Definition days_from_civil (y m d : Z) : Z :=
  let y := if m <=? 2 then y - 1 else y in
  let era := y / 400 in
  let yoe := y - era * 400 in
  let doy := (153 * (if 2 <? m then m - 3 else m + 9) + 2) / 5 + d - 1 in
  let doe := yoe * 365 + yoe / 4 - yoe / 100 + doy in
  era * 146097 + doe - 719468.

Definition civil_from_days (z : Z) : Z * Z * Z :=
  let z := z + 719468 in
  let era := z / 146097 in
  let doe := z - era * 146097 in
  let yoe := (doe - doe / 1460 + doe / 36524 - doe / 146096) / 365 in
  let doy := doe - (365 * yoe + yoe / 4 - yoe / 100) in
  let mp := (5 * doy + 2) / 153 in
  let d := doy - (153 * mp + 2) / 5 + 1 in
  let m := if mp <? 10 then mp + 3 else mp - 9 in
  (yoe + era * 400 + (if m <=? 2 then 1 else 0), m, d).

Definition digit (c : ascii) : option Z :=
  let n := Z.of_nat (nat_of_ascii c) in
  if (48 <=? n) && (n <=? 57) then Some (n - 48) else None.

Fixpoint number (acc : Z) (cs : list ascii) : option Z :=
  match cs with
  | [] => Some acc
  | c :: cs' =>
      match digit c with
      | Some d => number (acc * 10 + d) cs'
      | None => None
      end
  end.

Definition sep (c : ascii) (x : ascii) : bool := Ascii.eqb c x.

Definition getTime (s : string) : option Z :=
  match list_ascii_of_string s with
  | [y1; y2; y3; y4; a; m1; m2; b; d1; d2; t; h1; h2; c; i1; i2; e; s1; s2; f; f1; f2; f3; z] =>
      if sep a "-" && sep b "-" && sep t "T" && sep c ":" && sep e ":" && sep f "." && sep z "Z" then
        match number 0 [y1; y2; y3; y4], number 0 [m1; m2], number 0 [d1; d2],
              number 0 [h1; h2], number 0 [i1; i2], number 0 [s1; s2],
              number 0 [f1; f2; f3] with
        | Some y, Some m, Some d, Some h, Some mi, Some sec, Some ms =>
            let days := days_from_civil y m d in
            if (1 <=? m) && (m <=? 12) && (1 <=? d) && (h <=? 23) && (mi <=? 59) && (sec <=? 59)
               && bool_decide (civil_from_days days = (y, m, d))
            then Some ((((days * 24 + h) * 60 + mi) * 60 + sec) * 1000 + ms)
            else None
        | _, _, _, _, _, _, _ => None
        end
      else None
  | _ => None
  end.

Definition digit_char (n : Z) : ascii := ascii_of_nat (Z.to_nat (48 + n mod 10)).

Fixpoint digits (width : nat) (n : Z) (tail : string) : string :=
  match width with
  | O => tail
  | S w => digits w (n / 10) (String (digit_char n) tail)
  end.

Definition toISOString (t : Z) : string :=
  let days := t / 86400000 in
  let ms := t mod 86400000 in
  let '(y, m, d) := civil_from_days days in
  digits 4 y ("-" +:+ digits 2 m ("-" +:+ digits 2 d ("T" +:+
    digits 2 (ms / 3600000) (":" +:+ digits 2 (ms / 60000 mod 60) (":" +:+
    digits 2 (ms / 1000 mod 60) ("." +:+ digits 3 (ms mod 1000) "Z")))))).

End IsoDate.

(** An instance of [JSON.stringify] for responses whose strings need no
    escaping. *)
Module JsonText.

Definition quoted (s : string) : string :=
  String "034" s +:+ String "034" "".

Definition member (key : string) (value : option string) : list string :=
  match value with
  | Some v => [quoted key +:+ ":" +:+ quoted v]
  | None => []
  end.

Fixpoint join (sep : string) (l : list string) : string :=
  match l with
  | [] => ""
  | [x] => x
  | x :: rest => x +:+ sep +:+ join sep rest
  end.

Definition stringify (data : RegistrationResponse) : string :=
  "{" +:+ join ","
    (member "email_address" (email_address data) ++
     member "passkey" (passkey data) ++
     member "vault_id" (vault_id data) ++
     member "created_at" (created_at data)) +:+ "}".

End JsonText.

(** ** Frames: what a computation leaves alone

    [keeps R m]: every run of [m] takes a world to one related to it by
    [R]. *)

Definition keeps (R : World -> World -> Prop) {A} (m : M A) : Prop :=
  forall w, R w (snd (m w)).

(** Everything but the vault and the trace. *)
Definition same_plugin (w w' : World) : Prop :=
  settings w' = settings w /\
  pollingInterval w' = pollingInterval w /\
  retryDelay w' = retryDelay w /\
  maxRetryDelay w' = maxRetryDelay w /\
  hidden w' = hidden w /\
  intervals w' = intervals w /\
  lastHandle w' = lastHandle w.

(** Everything but the vault, the trace and the count of imports. *)
Definition same_but_imports (w w' : World) : Prop :=
  set_importsThisMonth 0 (settings w') = set_importsThisMonth 0 (settings w) /\
  pollingInterval w' = pollingInterval w /\
  retryDelay w' = retryDelay w /\
  maxRetryDelay w' = maxRetryDelay w /\
  hidden w' = hidden w /\
  intervals w' = intervals w /\
  lastHandle w' = lastHandle w.

(** What is in the vault stays in the vault. *)
Definition vault_grows (w w' : World) : Prop :=
  forall p, is_Some (vault w !! p) -> is_Some (vault w' !! p).

(** The vault once the Inbox folder is there. *)
Definition with_inbox (v : gmap string Entry) : gmap string Entry :=
  match v !! inboxFolder with
  | Some _ => v
  | None => <[inboxFolder := FolderEntry]> v
  end.


(** ** The stages of a poll, as functions on the settings and the world

    They are used to state what [poll] computes. *)

(** Update quota information *)
Definition quota_applied (data : DownloadResponse) (s : SendToVaultSettings) : SendToVaultSettings :=
  let s1 := match quota_used data with Some q => set_quotaUsed q s | None => s end in
  match quota_limit data with Some q => set_quotaLimit q s1 | None => s1 end.

(** Update last sync time if we processed notes *)
Definition cursor_advanced (processedCount : Z) (latestNoteDate : option string)
    (s : SendToVaultSettings) : SendToVaultSettings :=
  match latestNoteDate with
  | Some l =>
      if (0 <? processedCount) && negb (String.eqb l "") then set_lastSyncIso l s else s
  | None => s
  end.

(** What a poll that got its answer tells: the saved settings, the badge,
    the quota panel and, over quota, the paywall. *)
Definition published (data : DownloadResponse) (w : World) : list Event :=
  let s := settings w in
  [EvSaveData s;
   EvBadge (if 0 <? importsThisMonth s then Some (importsThisMonth s) else None);
   EvQuotaPanel (quotaUsed s) (quotaLimit s) (importsThisMonth s)] ++
  (if over_quota data then [EvModal PaywallModal] else []).

Definition with_events (evs : list Event) (w : World) : World :=
  fold_left (fun w e => with_event e w) evs w.

(** The content of the file at a path, if a file is there. *)
Definition file_content (v : gmap string Entry) (p : string) : option string :=
  match v !! p with
  | Some (FileEntry d) => Some d
  | _ => None
  end.

(** ** Concrete worlds and answers, for the examples *)

Module Scenario.

Definition inbox_only : gmap string Entry := {[ "Inbox" := FolderEntry ]}.

Definition registered (cursor : string) : SendToVaultSettings := {|
  uid := "v-1";
  jwt := "pk-1";
  alias := "notes@in.sendtovault.com";
  lastSyncIso := cursor;
  autoOpenImported := true;
  quotaUsed := 0;
  quotaLimit := 100;
  importsThisMonth := 0;
  vaultIdentifier := "Notes-0b6f"
|}.

Definition plugin (cursor : string) (v : gmap string Entry) : World :=
  initial_plugin (registered cursor) v.

Definition report : Note := {|
  id := "n1";
  title := "Report: Q1/Q2";
  markdown := "# Report";
  created_iso := "2024-03-01T12:00:00.000Z"
|}.

Definition minutes : Note := {|
  id := "n2";
  title := "Minutes";
  markdown := "- item";
  created_iso := "2024-03-02T09:30:00.000Z"
|}.

Definition response (ns : list Note) : DownloadResponse := {|
  notes := Some ns;
  over_quota := false;
  quota_used := None;
  quota_limit := None
|}.

(** The server answers with these notes and the host accepts every
    operation. *)
Definition answer_with (ns : list Note) : PollEnv := {|
  now := 1709380800000;
  fetched := Responded (Json (response ns));
  io := fun _ => no_fault;
  saveData_fault := None
|}.

(** No connection. *)
Definition offline : PollEnv := {|
  now := 1709380800000;
  fetched := Rejected "net::ERR_INTERNET_DISCONNECTED";
  io := fun _ => no_fault;
  saveData_fault := None
|}.

(** The server answers; the host rejects the creation of files. *)
Definition read_only (ns : list Note) : PollEnv := {|
  now := 1709380800000;
  fetched := Responded (Json (response ns));
  io := fun _ => {|
    createFolder_fault := Some "EACCES: permission denied";
    modify_fault := Some "EACCES: permission denied";
    create_fault := Some "EACCES: permission denied";
    openFile_fault := None
  |};
  saveData_fault := None
|}.

(** No notes, over quota, and a new [quota_used] only. *)
Definition over_quota_response : DownloadResponse := {|
  notes := Some [];
  over_quota := true;
  quota_used := Some 100;
  quota_limit := None
|}.

Definition over_quota_answer : PollEnv := {|
  now := 1709380800000;
  fetched := Responded (Json over_quota_response);
  io := fun _ => no_fault;
  saveData_fault := None
|}.

(** A registration response without its [passkey]. *)
Definition no_passkey : RegistrationResponse := {|
  email_address := Some "notes@in.sendtovault.com";
  passkey := None;
  vault_id := Some "v-1";
  created_at := Some "2024-03-01T00:00:00.000Z"
|}.

Definition register_answer (data : RegistrationResponse) : RegisterEnv := {|
  answer := Responded (Json data);
  register_saveData_fault := None
|}.

End Scenario.

(** ** Loading the settings ([loadSettings], [generateVaultIdentifier])

    [StoredData] is the object [loadData] gives: the content of the
    plugin's data file, a field the file lacks being [None]; [no_data] is
    the [null] of a missing file. *)

Record StoredData := {
  stored_uid : option string;
  stored_jwt : option string;
  stored_alias : option string;
  stored_lastSyncIso : option string;
  stored_autoOpenImported : option bool;
  stored_quotaUsed : option Z;
  stored_quotaLimit : option Z;
  stored_importsThisMonth : option Z;
  stored_vaultIdentifier : option string
}.

Definition no_data : StoredData := {|
  stored_uid := None;
  stored_jwt := None;
  stored_alias := None;
  stored_lastSyncIso := None;
  stored_autoOpenImported := None;
  stored_quotaUsed := None;
  stored_quotaLimit := None;
  stored_importsThisMonth := None;
  stored_vaultIdentifier := None
|}.

(** What [saveData(this.settings)] writes. *)
Definition stored (s : SendToVaultSettings) : StoredData := {|
  stored_uid := Some (uid s);
  stored_jwt := Some (jwt s);
  stored_alias := Some (alias s);
  stored_lastSyncIso := Some (lastSyncIso s);
  stored_autoOpenImported := Some (autoOpenImported s);
  stored_quotaUsed := Some (quotaUsed s);
  stored_quotaLimit := Some (quotaLimit s);
  stored_importsThisMonth := Some (importsThisMonth s);
  stored_vaultIdentifier := Some (vaultIdentifier s)
|}.

(** [Object.assign({}, defaults, data)] *)
Definition assign (defaults : SendToVaultSettings) (d : StoredData) : SendToVaultSettings := {|
  uid := default (uid defaults) (stored_uid d);
  jwt := default (jwt defaults) (stored_jwt d);
  alias := default (alias defaults) (stored_alias d);
  lastSyncIso := default (lastSyncIso defaults) (stored_lastSyncIso d);
  autoOpenImported := default (autoOpenImported defaults) (stored_autoOpenImported d);
  quotaUsed := default (quotaUsed defaults) (stored_quotaUsed d);
  quotaLimit := default (quotaLimit defaults) (stored_quotaLimit d);
  importsThisMonth := default (importsThisMonth defaults) (stored_importsThisMonth d);
  vaultIdentifier := default (vaultIdentifier defaults) (stored_vaultIdentifier d)
|}.

Definition set_vaultIdentifier (v : string) (s : SendToVaultSettings) : SendToVaultSettings := {|
  uid := uid s;
  jwt := jwt s;
  alias := alias s;
  lastSyncIso := lastSyncIso s;
  autoOpenImported := autoOpenImported s;
  quotaUsed := quotaUsed s;
  quotaLimit := quotaLimit s;
  importsThisMonth := importsThisMonth s;
  vaultIdentifier := v
|}.

(** What the host answers while the settings are loaded: the data file (or
    a rejected read), the name of the vault, the UUID drawn, and whether the
    save is accepted. *)
Record LoadEnv := {
  loadData_fault : option string;
  stored_data : StoredData;
  vaultName : string;
  randomUUID : string;
  load_saveData_fault : option string
}.

Definition generateVaultIdentifier (env : LoadEnv) : string :=
  (* Create identifier using vault name and random UUID *)
  vaultName env +:+ "-" +:+ randomUUID env.

Definition loadSettings (env : LoadEnv) : M unit :=
  rejected_by_host (loadData_fault env) ;;
  update (with_settings (assign DEFAULT_SETTINGS (stored_data env))) ;;
  (* Generate vault identifier if it doesn't exist *)
  let* v := get (fun w => vaultIdentifier (settings w)) in
  when (String.eqb v "")
       (update_settings (set_vaultIdentifier (generateVaultIdentifier env)) ;;
        saveSettings (load_saveData_fault env)).

(** The content of the data file after a trace: what was saved last. *)
Definition last_saved (t : list Event) : option SendToVaultSettings :=
  fold_left (fun acc e => match e with EvSaveData s => Some s | _ => acc end) t None.

(** ** The plugin driven by its host

    The entry points that start, stop and trigger polls: [startPolling]
    (from [onload] and from the first-run modal), [stopPolling] (from
    [onunload]), the interval, the [visibilitychange] listener and
    [forceSync]. *)

Inductive Action :=
| Start (env : PollEnv)
| Stop
| Tick (env : PollEnv)
| BecameVisible (env : PollEnv)
| ForceSync (env : PollEnv).

Section Session.

Variable Date_getTime : string -> option Z.
Variable Date_toISOString : Z -> string.

Definition act (a : Action) : M unit :=
  match a with
  | Start env => startPolling Date_getTime Date_toISOString env
  | Stop => stopPolling
  | Tick env => interval_tick Date_getTime Date_toISOString env
  | BecameVisible env => visibilityChangeHandler Date_getTime Date_toISOString env
  | ForceSync env => forceSync Date_getTime Date_toISOString env
  end.

Fixpoint session (acts : list Action) (w : World) : World :=
  match acts with
  | [] => w
  | a :: rest => session rest (snd (act a w))
  end.

End Session.

(** ** Vocabulary of the further properties *)

(** The plugin has no interval, or exactly the one it holds the handle of. *)
Definition one_timer (w : World) : Prop :=
  (pollingInterval w = None /\ intervals w = ∅) \/
  (exists h d, pollingInterval w = Some (S h) /\ intervals w = {[ S h := d ]}).

Definition requests (t : list Event) : list Request :=
  omap (fun e => match e with EvRequest r => Some r | _ => None end) t.

(** The events [saveNote] and the loop around it can add. *)
Definition from_saveNote (e : Event) : bool :=
  match e with
  | EvOpenFile _ => true
  | EvConsoleError _ => true
  | EvConsoleErrorNote _ => true
  | EvNotice msg =>
      String.prefix "Imported: " msg || String.prefix "Failed to save note: " msg
  | _ => false
  end.

(** The events of a poll after its request. *)
Definition after_request (e : Event) : bool :=
  from_saveNote e ||
  match e with
  | EvSaveData _ => true
  | EvBadge _ => true
  | EvQuotaPanel _ _ _ => true
  | EvModal PaywallModal => true
  | _ => false
  end.

(** [w'] has the trace of [w] and then events that all satisfy [P]. *)
Definition emits (P : Event -> bool) (w w' : World) : Prop :=
  exists evs, trace w' = trace w ++ evs /\ forallb P evs = true.

(** A path that is neither the Inbox folder nor below it. *)
Definition outside_inbox (p : string) : bool :=
  negb (String.eqb p inboxFolder) && negb (String.prefix "Inbox/" p).

Definition keeps_outside_inbox (w w' : World) : Prop :=
  forall p, outside_inbox p = true -> vault w' !! p = vault w !! p.

(** The request is rejected or its body unreadable. *)
Definition fetch_fails (env : PollEnv) : bool :=
  match fetched env with
  | Responded (Json _) => false
  | _ => true
  end.

(** The number of notes the answer holds. *)
Definition notes_count (env : PollEnv) : Z :=
  match fetched env with
  | Responded (Json data) => Z.of_nat (length (notes_of data))
  | _ => 0
  end.

(** The events of a poll. *)
Definition from_poll (e : Event) : bool :=
  match e with
  | EvRequest (DownloadRequest _ _ _) => true
  | _ => after_request e
  end.

(** The part of the settings that identifies the account and the vault,
    with the user's auto-open choice. *)
Definition account (s : SendToVaultSettings) : string * string * string * string * bool :=
  (uid s, jwt s, alias s, vaultIdentifier s, autoOpenImported s).

(** The world with the plugin's interval set: [setInterval] with the retry
    delay of the moment, and the handle kept in [pollingInterval]. *)
Definition armed (w : World) : World :=
  with_pollingInterval (Some (S (lastHandle w)))
    (with_intervals (<[S (lastHandle w) := retryDelay w]> (intervals w))
                    (S (lastHandle w)) w).

(** Everything but the credentials and the trace. *)
Definition same_but_credentials (w w' : World) : Prop :=
  set_credentials "" "" "" (settings w') = set_credentials "" "" "" (settings w) /\
  pollingInterval w' = pollingInterval w /\
  retryDelay w' = retryDelay w /\
  maxRetryDelay w' = maxRetryDelay w /\
  hidden w' = hidden w /\
  vault w' = vault w /\
  intervals w' = intervals w /\
  lastHandle w' = lastHandle w.

(** ** More concrete worlds and answers *)

Module Further.

Import Scenario.

(** Another title with the sanitized form of [report]'s. *)
Definition report_again : Note := {|
  id := "n3";
  title := "Report? Q1|Q2";
  markdown := "# Report, revised";
  created_iso := "2024-03-03T08:00:00.000Z"
|}.

(** Files can be written but not opened. *)
Definition cannot_open : NoteIO := {|
  createFolder_fault := None;
  modify_fault := None;
  create_fault := None;
  openFile_fault := Some "No leaf to open the file in"
|}.

Definition full_response : RegistrationResponse := {|
  email_address := Some "notes@in.sendtovault.com";
  passkey := Some "pk-1";
  vault_id := Some "v-1";
  created_at := Some "2024-03-01T00:00:00.000Z"
|}.

Definition register_unsaved (data : RegistrationResponse) : RegisterEnv := {|
  answer := Responded (Json data);
  register_saveData_fault := Some "EACCES: permission denied"
|}.

Definition register_offline : RegisterEnv := {|
  answer := Rejected "net::ERR_INTERNET_DISCONNECTED";
  register_saveData_fault := None
|}.

(** The data file of a registered plugin, and no data file at all. *)
Definition load_stored (s : SendToVaultSettings) : LoadEnv := {|
  loadData_fault := None;
  stored_data := stored s;
  vaultName := "Notes";
  randomUUID := "0b6f8a52-3c1d-4e7f-9a10-5d2c7e8b9f00";
  load_saveData_fault := None
|}.

Definition first_load : LoadEnv := {|
  loadData_fault := None;
  stored_data := no_data;
  vaultName := "Notes";
  randomUUID := "0b6f8a52-3c1d-4e7f-9a10-5d2c7e8b9f00";
  load_saveData_fault := None
|}.

(** The server answers; the data file cannot be written. *)
Definition unsaved (ns : list Note) : PollEnv := {|
  now := 1709380800000;
  fetched := Responded (Json (response ns));
  io := fun _ => no_fault;
  saveData_fault := Some "EACCES: permission denied"
|}.

End Further.
(** * Properties *)

(** ** Strings *)

Lemma replace_class_length p c s :
  String.length (Js.replace_class p c s) = String.length s.
Proof. induction s as [|a s IH]; simpl; [reflexivity | now rewrite IH]. Qed.

Lemma replace_class_get p c s (i : nat) :
  String.get i (Js.replace_class p c s) =
  (fun a => if p a then c else a) <$> String.get i s.
Proof.
  revert i. induction s as [|a s IH]; intros i; simpl.
  - reflexivity.
  - destruct i as [|i]; simpl; [reflexivity | apply IH].
Qed.

Lemma replace_class_occurs p c x s :
  p x = true -> p c = false -> Js.occurs x (Js.replace_class p c s) = false.
Proof.
  intros Hx Hc. induction s as [|a s IH]; simpl; [reflexivity|].
  rewrite IH, orb_false_r.
  destruct (p a) eqn:Ha; apply Ascii.eqb_neq; congruence.
Qed.

Lemma sanitize_legal t x :
  illegal_in_filename x = true -> Js.occurs x (sanitize t) = false.
Proof. intros Hx. now apply replace_class_occurs. Qed.

Lemma occurs_app c s1 s2 :
  Js.occurs c (s1 +:+ s2) = Js.occurs c s1 || Js.occurs c s2.
Proof.
  induction s1 as [|a s1 IH]; simpl; [reflexivity|].
  now rewrite IH, orb_assoc.
Qed.

Lemma basename_from_no_slash acc s :
  Js.occurs "/" s = false -> Js.basename_from acc s = acc.
Proof.
  revert acc. induction s as [|a s IH]; intros acc; simpl; [reflexivity|].
  intros H. apply orb_false_iff in H as [Ha Hs].
  rewrite Ha. now apply IH.
Qed.

Lemma name_of_note_file note e :
  name (abstract_file (note_filename note) e) = sanitize (title note) +:+ ".md".
Proof.
  assert (Hn : Js.basename (note_filename note) = sanitize (title note) +:+ ".md").
  { unfold note_filename, inboxFolder.
    set (r := sanitize (title note) +:+ ".md").
    change (Js.basename_from r r = r).
    apply basename_from_no_slash. subst r.
    rewrite occurs_app, sanitize_legal by reflexivity. reflexivity. }
  destruct e; exact Hn.
Qed.

Lemma note_filename_not_inbox note : inboxFolder <> note_filename note.
Proof. unfold note_filename, inboxFolder. simpl. discriminate. Qed.

(** ** Frames: what a computation leaves alone *)

Section Frame.

Context (R : World -> World -> Prop) `{!PreOrder R}.

Local Abbreviation keeps := (keeps R).

Lemma keeps_ret {A} (a : A) : keeps (ret a).
Proof. intros w. reflexivity. Qed.

Lemma keeps_throw {A} e : keeps (@throw A e).
Proof. intros w. reflexivity. Qed.

Lemma keeps_get {A} (f : World -> A) : keeps (get f).
Proof. intros w. reflexivity. Qed.

Lemma keeps_update f : (forall w, R w (f w)) -> keeps (update f).
Proof. intros H w. apply H. Qed.

Lemma keeps_bind {A B} (m : M A) (k : A -> M B) :
  keeps m -> (forall a, keeps (k a)) -> keeps (bind m k).
Proof.
  intros Hm Hk w. unfold bind. specialize (Hm w).
  destruct (m w) as [[a|e] w']; simpl in *.
  - etrans; [exact Hm | apply Hk].
  - exact Hm.
Qed.

Lemma keeps_try_catch {A} (m : M A) (h : JsError -> M A) :
  keeps m -> (forall e, keeps (h e)) -> keeps (try_catch m h).
Proof.
  intros Hm Hh w. unfold try_catch. specialize (Hm w).
  destruct (m w) as [[a|e] w']; simpl in *.
  - exact Hm.
  - etrans; [exact Hm | apply Hh].
Qed.

Lemma keeps_rejected fault : keeps (rejected_by_host fault).
Proof. destruct fault; [apply keeps_throw | apply keeps_ret]. Qed.

End Frame.

Ltac keeps_step :=
  match goal with
  | |- keeps _ (ret _) => apply keeps_ret; try apply _
  | |- keeps _ (throw _) => apply keeps_throw; try apply _
  | |- keeps _ (get _) => apply keeps_get; try apply _
  | |- keeps _ (rejected_by_host _) => apply keeps_rejected; try apply _
  | |- keeps _ (bind _ _) => apply keeps_bind; [apply _ | | intro]
  | |- keeps _ (try_catch _ _) => apply keeps_try_catch; [apply _ | | intro]
  | |- keeps _ (update _) => apply keeps_update; intro
  | |- keeps _ (match ?x with _ => _ end) => destruct x
  | |- keeps _ (if ?x then _ else _) => destruct x
  | |- keeps _ (let _ := _ in _) => cbv zeta
  end.

#[local] Instance same_plugin_preorder : PreOrder same_plugin.
Proof.
  split.
  - intros w. repeat split.
  - intros a b c. unfold same_plugin. intuition congruence.
Qed.

Lemma saveNote_same_plugin io note : keeps same_plugin (saveNote io note).
Proof.
  unfold saveNote, createFolder, create, modify, openFile, getAbstractFileByPath,
    Notice, console_error, emit, when.
  repeat keeps_step; try assumption; repeat split.
Qed.

#[local] Instance same_but_imports_preorder : PreOrder same_but_imports.
Proof.
  split.
  - intros w. repeat split.
  - intros a b c. unfold same_but_imports. intuition congruence.
Qed.

#[local] Instance vault_grows_preorder : PreOrder vault_grows.
Proof.
  split.
  - intros w p H. exact H.
  - intros a b c Hab Hbc p H. apply Hbc, Hab, H.
Qed.

Lemma saveNote_vault_grows io note : keeps vault_grows (saveNote io note).
Proof.
  unfold saveNote, createFolder, create, modify, openFile, getAbstractFileByPath,
    Notice, console_error, emit, when.
  repeat keeps_step; intros p Hp; simpl; try exact Hp;
    rewrite lookup_insert_is_Some'; right; exact Hp.
Qed.

(** ** [saveNote] *)

(** The [try] statement of [saveNote] has a handler that does not throw. *)
Lemma try_catch_returns {A} (m : M A) (h : JsError -> M A) w :
  (forall e w', exists a, fst (h e w') = Return a) ->
  exists a, fst (try_catch m h w) = Return a.
Proof.
  intros Hh. unfold try_catch.
  destruct (m w) as [[a|e] w']; simpl; [eauto | apply Hh].
Qed.

(** [saveNote] throws exactly when it has to create the Inbox folder and
    the host rejects that. *)
Lemma saveNote_returns io note w :
  is_Some (vault w !! inboxFolder) \/ createFolder_fault io = None ->
  fst (saveNote io note w) = Return tt.
Proof.
  intros H. unfold saveNote.
  assert (Hbody : forall w1,
    fst (try_catch
      (let* existingFile := getAbstractFileByPath (note_filename note) in
       let create_new :=
         let* file := create (create_fault io) (note_filename note) (markdown note) in
         let* auto := get (fun w => autoOpenImported (settings w)) in
         when auto (openFile (openFile_fault io) file) in
       match existingFile with
       | Some f =>
           if String.eqb (name f) (sanitize (title note) +:+ ".md") then
             modify (modify_fault io) f (markdown note)
           else create_new
       | None => create_new
       end ;;
       Notice ("Imported: " +:+ title note))
      (fun error =>
         console_error error ;;
         Notice ("Failed to save note: " +:+ title note)) w1) = Return tt).
  { intros w1.
    match goal with |- fst (try_catch ?m ?h w1) = _ =>
      destruct (try_catch_returns m h w1) as [[] Ha]; [|exact Ha] end.
    intros e w'. exists tt. reflexivity. }
  unfold bind at 1. unfold getAbstractFileByPath at 1, get at 1.
  destruct (vault w !! inboxFolder) as [e|] eqn:Hin; simpl.
  - exact (Hbody w).
  - destruct H as [[? ?]|Hf]; [discriminate|].
    unfold bind at 1. unfold createFolder, rejected_by_host. rewrite Hf.
    unfold bind at 1, ret at 1. unfold bind at 1.
    unfold getAbstractFileByPath at 1, get at 1. rewrite Hin. simpl.
    apply Hbody.
Qed.

Lemma saveNote_throws io note w msg :
  vault w !! inboxFolder = None -> createFolder_fault io = Some msg ->
  saveNote io note w = (Throw {| message := msg |}, w).
Proof.
  intros Hin Hf. unfold saveNote.
  unfold bind at 1. unfold getAbstractFileByPath at 1, get at 1.
  rewrite Hin. simpl.
  unfold bind at 1. unfold createFolder, rejected_by_host. rewrite Hf.
  reflexivity.
Qed.

Lemma with_inbox_lookup v p : p <> inboxFolder -> with_inbox v !! p = v !! p.
Proof.
  intros Hp. unfold with_inbox. destruct (v !! inboxFolder); [reflexivity|].
  now apply lookup_insert_ne.
Qed.

Ltac run_saveNote :=
  unfold saveNote;
  cbv [bind getAbstractFileByPath get ret createFolder rejected_by_host update
       try_catch create modify when openFile emit Notice console_error throw].

(** Writing a note to a free path, the host accepting the writes. *)
Lemma saveNote_creates io note w :
  createFolder_fault io = None -> create_fault io = None ->
  vault w !! note_filename note = None ->
  vault (snd (saveNote io note w)) =
  <[note_filename note := FileEntry (markdown note)]> (with_inbox (vault w)).
Proof.
  intros Hcf Hc Hfree. pose proof (note_filename_not_inbox note) as Hne.
  run_saveNote. unfold with_inbox. rewrite Hcf, Hc.
  destruct (vault w !! inboxFolder) as [e|] eqn:Hin; simpl.
  - rewrite Hfree. simpl. rewrite Hfree. simpl.
    destruct (autoOpenImported (settings w)); simpl;
      [destruct (openFile_fault io)|]; reflexivity.
  - rewrite Hin. simpl. rewrite lookup_insert_ne, Hfree by exact Hne. simpl.
    rewrite lookup_insert_ne, Hfree by exact Hne. simpl.
    destruct (autoOpenImported (settings w)); simpl;
      [destruct (openFile_fault io)|]; reflexivity.
Qed.

(** Writing a note to the path of a file, the host accepting the writes. *)
Lemma saveNote_overwrites io note w old :
  createFolder_fault io = None -> modify_fault io = None ->
  vault w !! note_filename note = Some (FileEntry old) ->
  vault (snd (saveNote io note w)) =
  <[note_filename note := FileEntry (markdown note)]> (with_inbox (vault w)).
Proof.
  intros Hcf Hm Hfile. pose proof (note_filename_not_inbox note) as Hne.
  pose proof (name_of_note_file note (FileEntry old)) as Hname.
  run_saveNote. unfold with_inbox. rewrite Hcf, Hm.
  destruct (vault w !! inboxFolder) as [e|] eqn:Hin; simpl.
  - rewrite Hfile. simpl. simpl in Hname. rewrite Hname, String.eqb_refl.
    simpl. rewrite Hfile. reflexivity.
  - rewrite Hin. simpl. rewrite lookup_insert_ne, Hfile by exact Hne. simpl.
    simpl in Hname. rewrite Hname, String.eqb_refl. simpl.
    rewrite lookup_insert_ne, Hfile by exact Hne. reflexivity.
Qed.

Lemma with_inbox_has v : is_Some (with_inbox v !! inboxFolder).
Proof.
  unfold with_inbox. destruct (v !! inboxFolder) eqn:H.
  - rewrite H. eauto.
  - rewrite lookup_insert_eq. eauto.
Qed.

Lemma with_inbox_id v : is_Some (v !! inboxFolder) -> with_inbox v = v.
Proof. intros [e He]. unfold with_inbox. now rewrite He. Qed.

Lemma with_inbox_files v q : file_content (with_inbox v) q = file_content v q.
Proof.
  unfold file_content, with_inbox.
  destruct (v !! inboxFolder) eqn:Hin; [reflexivity|].
  destruct (decide (q = inboxFolder)) as [->|Hq].
  - now rewrite lookup_insert_eq, Hin.
  - now rewrite lookup_insert_ne by congruence.
Qed.

(** The vault after a note is written over a path that is free or holds a
    file. *)
Lemma saveNote_writes io note w :
  createFolder_fault io = None -> create_fault io = None -> modify_fault io = None ->
  vault w !! note_filename note <> Some FolderEntry ->
  vault (snd (saveNote io note w)) =
  <[note_filename note := FileEntry (markdown note)]> (with_inbox (vault w)).
Proof.
  intros Hcf Hc Hm Hp.
  destruct (vault w !! note_filename note) as [[old|]|] eqn:Hlook.
  - now apply saveNote_overwrites with old.
  - contradiction.
  - now apply saveNote_creates.
Qed.

(** C6. [saveNote] replaces each character of the title that is illegal in
    a file name by an underscore and writes to the fixed path
    Inbox/<sanitized title>.md. With the host accepting the writes: when
    nothing is at that path, that one file is created with the note's body
    and the files of the vault are otherwise as before; when a file is at
    that path, its content becomes the note's body, the other files as
    before; and saving the same note a second time leaves the vault as the
    first save left it. *)
Theorem saveNote_materializes io note w :
  createFolder_fault io = None -> create_fault io = None -> modify_fault io = None ->
  let p := note_filename note in
  let w1 := snd (saveNote io note w) in
  let w2 := snd (saveNote io note w1) in
  (p = inboxFolder +:+ "/" +:+ sanitize (title note) +:+ ".md" /\
   String.length (sanitize (title note)) = String.length (title note) /\
   (forall i : nat,
      String.get i (sanitize (title note)) =
      (fun a => if illegal_in_filename a then "_"%char else a) <$> String.get i (title note)) /\
   (forall c, illegal_in_filename c = true -> Js.occurs c (sanitize (title note)) = false)) /\
  fst (saveNote io note w) = Return tt /\
  (vault w !! p = None ->
   file_content (vault w1) p = Some (markdown note) /\
   forall q, q <> p -> file_content (vault w1) q = file_content (vault w) q) /\
  (forall old, vault w !! p = Some (FileEntry old) ->
   file_content (vault w1) p = Some (markdown note) /\
   forall q, q <> p -> file_content (vault w1) q = file_content (vault w) q) /\
  (vault w !! p <> Some FolderEntry ->
   fst (saveNote io note w1) = Return tt /\
   vault w2 = vault w1 /\
   file_content (vault w2) p = Some (markdown note)).
Proof.
  intros Hcf Hc Hm p w1 w2.
  assert (Hwrite : vault w !! p <> Some FolderEntry ->
    file_content (vault w1) p = Some (markdown note) /\
    forall q, q <> p -> file_content (vault w1) q = file_content (vault w) q).
  { intros Hp. subst w1. rewrite (saveNote_writes io note w Hcf Hc Hm Hp). fold p.
    split.
    - unfold file_content. now rewrite lookup_insert_eq.
    - intros q Hq. rewrite <- (with_inbox_files (vault w) q).
      unfold file_content. now rewrite lookup_insert_ne by congruence. }
  split; [|split; [|split; [|split]]].
  - split; [reflexivity|]. split.
    + apply replace_class_length.
    + split; [intros i; apply replace_class_get|].
      intros c Hc'. now apply sanitize_legal.
  - apply saveNote_returns. now right.
  - intros Hfree. apply Hwrite. rewrite Hfree. discriminate.
  - intros old Hfile. apply Hwrite. rewrite Hfile. discriminate.
  - intros Hp.
    assert (H1 : vault w1 = <[p := FileEntry (markdown note)]> (with_inbox (vault w))).
    { subst w1 p. now apply saveNote_writes. }
    assert (Hin : is_Some (vault w1 !! inboxFolder)).
    { rewrite H1. rewrite lookup_insert_ne
        by (intros E; apply (note_filename_not_inbox note); now symmetry).
      apply with_inbox_has. }
    assert (H2 : vault w2 = vault w1).
    { subst w2. rewrite (saveNote_overwrites io note w1 (markdown note) Hcf Hm).
      - rewrite (with_inbox_id _ Hin). fold p. rewrite H1.
        now rewrite insert_insert_eq.
      - fold p. rewrite H1. now rewrite lookup_insert_eq. }
    split; [apply saveNote_returns; now right|]. split; [exact H2|].
    rewrite H2. apply Hwrite, Hp.
Qed.

(** ** The loop over the notes *)

Section SyncProperties.

Variable Date_getTime : string -> option Z.
Variable Date_toISOString : Z -> string.

Local Abbreviation later := (later_than Date_getTime).
Local Abbreviation leq_date := (date_leb Date_getTime).
Local Abbreviation has_date := (dated Date_getTime).
Local Abbreviation track := (track_latest Date_getTime).
Local Abbreviation process := (process_notes Date_getTime).
Local Abbreviation since_of := (since Date_toISOString).
Local Abbreviation attempt := (poll_attempt Date_getTime Date_toISOString).
Local Abbreviation poll1 := (poll Date_getTime Date_toISOString).
Local Abbreviation run := (polls Date_getTime Date_toISOString).
Local Abbreviation request_of := (download_request Date_toISOString).
Local Abbreviation stage := (notes_stage Date_getTime).

Lemma track_latest_cases l note :
  track l note = l \/ track l note = Some (created_iso note).
Proof.
  unfold track_latest. destruct l as [l|]; [|now right].
  destruct (String.eqb l "" || later (created_iso note) l); auto.
Qed.

(** [++] is exact among the integers a double holds one by one. *)
Lemma increment_exact x : - 2 ^ 53 <= x < 2 ^ 53 -> increment x = x + 1.
Proof.
  intros H. unfold increment.
  replace (- 2 ^ 53 <=? x) with true by (symmetry; apply Z.leb_le; lia).
  replace (x <? 2 ^ 53) with true by (symmetry; apply Z.ltb_lt; lia).
  reflexivity.
Qed.

Lemma counts_exactly_bounds n k :
  counts_exactly n k = true <-> - 2 ^ 53 <= n /\ n + k <= 2 ^ 53.
Proof.
  unfold counts_exactly. rewrite andb_true_iff, Z.leb_le, Z.leb_le. reflexivity.
Qed.

(** One turn of the loop. *)
Lemma process_notes_cons io index note rest c l w :
  process io index (note :: rest) c l w =
  match saveNote (io index) note w with
  | (Return _, w1) =>
      process io (S index) rest (c + 1) (track l note)
        (with_settings
           (set_importsThisMonth (increment (importsThisMonth (settings w1)))
              (settings w1)) w1)
  | (Throw e, w1) =>
      process io (S index) rest c l
        (with_event (EvConsoleErrorNote note) (with_event (EvConsoleError e) w1))
  end.
Proof.
  simpl. unfold bind at 1. unfold try_catch. unfold bind at 1.
  destruct (saveNote (io index) note w) as [[[]|e] w1]; reflexivity.
Qed.

(** The loop always completes; it counts the notes for which [saveNote]
    returned, increments [importsThisMonth] as many times, which adds that
    count to it while the increments are exact, and leaves the rest of the
    plugin alone. *)
Lemma process_notes_spec io ns : forall index c l w,
  exists c' l' w',
    process io index ns c l w = (Return (c', l'), w') /\
    same_but_imports w w' /\
    vault_grows w w' /\
    (counts_exactly (importsThisMonth (settings w)) (Z.of_nat (length ns)) = true ->
     importsThisMonth (settings w') = importsThisMonth (settings w) + (c' - c)) /\
    c <= c' <= c + Z.of_nat (length ns) /\
    (c' = c -> l' = l) /\
    (l' = l \/ exists note, In note ns /\ l' = Some (created_iso note)).
Proof.
  induction ns as [|note rest IH]; intros index c l w.
  - exists c, l, w. simpl. repeat split; try reflexivity; try lia; auto.
  - rewrite process_notes_cons.
    pose proof (saveNote_same_plugin (io index) note w) as Hsame.
    pose proof (saveNote_vault_grows (io index) note w) as Hgrow.
    destruct (saveNote (io index) note w) as [[[]|e] w1]; simpl in Hsame, Hgrow.
    + destruct (IH (S index) (c + 1) (track l note)
        (with_settings
           (set_importsThisMonth (increment (importsThisMonth (settings w1)))
              (settings w1)) w1))
        as (c' & l' & w' & Heq & Hframe & Hv & Himp & Hc & Hl0 & Hl).
      exists c', l', w'. split; [exact Heq|].
      destruct Hsame as (Hs & ? & ? & ? & ? & ? & ?).
      destruct Hframe as (Hs' & ? & ? & ? & ? & ? & ?).
      cbn [settings with_settings importsThisMonth set_importsThisMonth
           pollingInterval retryDelay maxRetryDelay hidden intervals lastHandle vault] in *.
      split; [|split; [|split; [|split; [|split]]]].
      * repeat split; try congruence. rewrite Hs', Hs. reflexivity.
      * intros p Hp. apply Hv. simpl. apply Hgrow, Hp.
      * intros Hb. apply counts_exactly_bounds in Hb.
        change (length (note :: rest)) with (S (length rest)) in Hb.
        rewrite Nat2Z.inj_succ in Hb. rewrite Hs in Himp.
        rewrite increment_exact in Himp by lia.
        rewrite Himp; [lia|]. apply counts_exactly_bounds. lia.
      * change (length (note :: rest)) with (S (length rest)).
        rewrite Nat2Z.inj_succ. lia.
      * lia.
      * destruct Hl as [->|(n & Hn & ->)].
        -- destruct (track_latest_cases l note) as [->| ->]; [now left|].
           right. exists note. split; [now left | reflexivity].
        -- right. exists n. split; [now right | reflexivity].
    + destruct (IH (S index) c l
        (with_event (EvConsoleErrorNote note) (with_event (EvConsoleError e) w1)))
        as (c' & l' & w' & Heq & Hframe & Hv & Himp & Hc & Hl0 & Hl).
      exists c', l', w'. split; [exact Heq|].
      destruct Hsame as (Hs & ? & ? & ? & ? & ? & ?).
      destruct Hframe as (Hs' & ? & ? & ? & ? & ? & ?).
      cbn [settings with_event importsThisMonth
           pollingInterval retryDelay maxRetryDelay hidden intervals lastHandle vault] in *.
      split; [|split; [|split; [|split; [|split]]]].
      * repeat split; try congruence.
      * intros p Hp. apply Hv. simpl. apply Hgrow, Hp.
      * intros Hb. apply counts_exactly_bounds in Hb.
        change (length (note :: rest)) with (S (length rest)) in Hb.
        rewrite Nat2Z.inj_succ in Hb. rewrite Hs in Himp.
        rewrite Himp; [lia|]. apply counts_exactly_bounds. lia.
      * change (length (note :: rest)) with (S (length rest)).
        rewrite Nat2Z.inj_succ. lia.
      * exact Hl0.
      * destruct Hl as [->|(n & Hn & ->)]; [now left|].
        right. exists n. split; [now right | reflexivity].
Qed.


(** With the Inbox folder there, or its creation never rejected, [saveNote]
    returns for every note: the loop counts them all. *)
Lemma process_notes_all io ns : forall index c l w,
  is_Some (vault w !! inboxFolder) \/ (forall i, createFolder_fault (io i) = None) ->
  exists w',
    process io index ns c l w =
    (Return (c + Z.of_nat (length ns), fold_left track ns l), w').
Proof.
  induction ns as [|note rest IH]; intros index c l w H.
  - exists w. simpl. unfold ret. repeat f_equal. lia.
  - rewrite process_notes_cons.
    assert (Hret : fst (saveNote (io index) note w) = Return tt).
    { apply saveNote_returns. destruct H as [H|H]; [now left | right; apply H]. }
    pose proof (saveNote_vault_grows (io index) note w) as Hgrow.
    destruct (saveNote (io index) note w) as [[[]|e] w1]; simpl in Hret, Hgrow;
      [|discriminate].
    destruct (IH (S index) (c + 1) (track l note)
      (with_settings
         (set_importsThisMonth (increment (importsThisMonth (settings w1)))
            (settings w1)) w1))
      as (w' & Heq).
    { destruct H as [H|H]; [left; simpl; apply Hgrow, H | right; exact H]. }
    exists w'. rewrite Heq. simpl fold_left.
    change (length (note :: rest)) with (S (length rest)).
    rewrite Nat2Z.inj_succ.
    replace (c + 1 + Z.of_nat (length rest)) with (c + Z.succ (Z.of_nat (length rest))) by lia.
    reflexivity.
Qed.

(** *** The latest date *)

Lemma date_leb_refl c : has_date c = true -> leq_date c c = true.
Proof.
  unfold dated, date_leb. intros H. apply andb_true_iff in H as [_ H].
  apply bool_decide_eq_true in H as [x Hx]. rewrite Hx. apply Z.leb_refl.
Qed.

Lemma date_leb_trans a b c :
  leq_date a b = true -> leq_date b c = true -> leq_date a c = true.
Proof.
  unfold date_leb.
  destruct (Date_getTime a), (Date_getTime b), (Date_getTime c); try discriminate.
  rewrite !Z.leb_le. lia.
Qed.

Lemma track_latest_dated l note :
  has_date l = true -> has_date (created_iso note) = true ->
  exists l', track (Some l) note = Some l' /\ has_date l' = true /\
    leq_date l l' = true /\ leq_date (created_iso note) l' = true /\
    (l' = l \/ l' = created_iso note).
Proof.
  intros Hl Hn. unfold track_latest.
  assert (Hl' := Hl). unfold dated in Hl'. apply andb_true_iff in Hl' as [He Hx].
  apply negb_true_iff in He. rewrite He. simpl.
  apply bool_decide_eq_true in Hx as [x Hx].
  assert (Hn' := Hn). unfold dated in Hn'. apply andb_true_iff in Hn' as [_ Hy].
  apply bool_decide_eq_true in Hy as [y Hy].
  destruct (later (created_iso note) l) eqn:Hlt.
  - exists (created_iso note). repeat split; auto using date_leb_refl.
    unfold later_than in Hlt. unfold date_leb. rewrite Hx, Hy in *.
    apply Z.ltb_lt in Hlt. apply Z.leb_le. lia.
  - exists l. repeat split; auto using date_leb_refl.
    unfold later_than in Hlt. unfold date_leb. rewrite Hx, Hy in *.
    apply Z.ltb_ge in Hlt. apply Z.leb_le. lia.
Qed.

Lemma fold_track_latest_dated ns : forall l,
  has_date l = true -> Forall (fun note => has_date (created_iso note) = true) ns ->
  exists l', fold_left track ns (Some l) = Some l' /\ has_date l' = true /\
    leq_date l l' = true /\
    Forall (fun note => leq_date (created_iso note) l' = true) ns /\
    (l' = l \/ exists note, In note ns /\ l' = created_iso note).
Proof.
  induction ns as [|note rest IH]; intros l Hl Hns.
  - exists l. simpl. repeat split; auto using date_leb_refl.
  - inversion Hns as [|? ? Hn Hrest]; subst.
    destruct (track_latest_dated l note Hl Hn) as (l1 & Ht & Hd1 & Hle1 & Hn1 & Hor1).
    destruct (IH l1 Hd1 Hrest) as (l' & Hf & Hd' & Hle' & Hall & Hor').
    exists l'. cbn [fold_left]. rewrite Ht. split; [exact Hf|].
    repeat split; auto.
    + eapply date_leb_trans; eauto.
    + constructor; [eapply date_leb_trans; eauto | exact Hall].
    + destruct Hor' as [->|(n & Hn' & ->)].
      * destruct Hor1 as [->| ->]; [now left|]. right. exists note. split; [now left|reflexivity].
      * right. exists n. split; [now right | reflexivity].
Qed.

(** Over notes that all carry a date, the loop's [latestNoteDate] is the
    date of one of them and none is later. *)
Lemma latest_of_dated note rest :
  Forall (fun n => has_date (created_iso n) = true) (note :: rest) ->
  exists l', fold_left track (note :: rest) None = Some l' /\ has_date l' = true /\
    Forall (fun n => leq_date (created_iso n) l' = true) (note :: rest) /\
    exists n, In n (note :: rest) /\ l' = created_iso n.
Proof.
  intros H. inversion H as [|? ? Hn Hrest]; subst.
  destruct (fold_track_latest_dated rest (created_iso note) Hn Hrest)
    as (l' & Hf & Hd & Hle & Hall & Hor).
  exists l'. split; [exact Hf|]. split; [exact Hd|].
  split; [constructor; [exact Hle | exact Hall]|].
  destruct Hor as [->|(n & Hn' & ->)].
  - exists note. split; [now left | reflexivity].
  - exists n. split; [now right | reflexivity].
Qed.


(** ** One poll *)

Lemma with_settings_id w : with_settings (settings w) w = w.
Proof. destruct w; reflexivity. Qed.

(** The request is rejected: the [try] block throws right after sending it. *)
Lemma poll_attempt_rejected env w msg :
  fetched env = Rejected msg ->
  attempt env w = (Throw {| message := msg |}, with_event (request_of env w) w).
Proof.
  intros H. unfold poll_attempt, download_request.
  cbv [bind get requestUrl settle emit update]. rewrite H. reflexivity.
Qed.

(** The body is no JSON object: the same, at [response.json]. *)
Lemma poll_attempt_not_json env w msg :
  fetched env = Responded (NotJson msg) ->
  attempt env w = (Throw {| message := msg |}, with_event (request_of env w) w).
Proof.
  intros H. unfold poll_attempt, download_request.
  cbv [bind get requestUrl settle emit update json ret throw]. rewrite H. reflexivity.
Qed.

(** The loop stage of a poll, on whatever [notes] holds. *)
Lemma notes_stage_spec env data w1 :
  exists c l w2,
    stage env data w1 = (Return (c, l), w2) /\
    same_but_imports w1 w2 /\
    vault_grows w1 w2 /\
    (counts_exactly (importsThisMonth (settings w1))
       (Z.of_nat (length (notes_of data))) = true ->
     importsThisMonth (settings w2) = importsThisMonth (settings w1) + c) /\
    0 <= c <= Z.of_nat (length (notes_of data)) /\
    (c = 0 -> l = None) /\
    (l = None \/ exists note, In note (notes_of data) /\ l = Some (created_iso note)).
Proof.
  unfold notes_stage, notes_of. destruct (notes data) as [ns|]; simpl.
  - destruct (process_notes_spec (io env) ns 0 0 None w1)
      as (c & l & w2 & Heq & Hf & Hv & Hi & Hc & Hl0 & Hl).
    exists c, l, w2.
    split; [exact Heq|]. split; [exact Hf|]. split; [exact Hv|].
    split; [intros Hb; rewrite Hi by exact Hb; lia|]. split; [lia|]. split; [exact Hl0|].
    destruct Hl as [->|Hl]; [now left | now right].
  - exists 0, None, w1.
    split; [reflexivity|]. split; [reflexivity|]. split; [reflexivity|].
    split; [intros _; lia|]. split; [simpl; lia|]. split; [reflexivity | now left].
Qed.

(** The [try] block from a response on: the quota, the loop, the cursor;
    then the settings are saved, and only a rejected save makes the block
    throw. *)
Lemma poll_process_json env data w0 :
  forall c l w2,
    stage env data (with_settings (quota_applied data (settings w0)) w0) =
      (Return (c, l), w2) ->
    let w3 := with_settings (cursor_advanced c l (settings w2)) w2 in
    poll_process Date_getTime env (Json data) w0 =
    match saveData_fault env with
    | Some msg => (Throw {| message := msg |}, w3)
    | None =>
        (Return (c, l),
         with_retryDelay (2 * 60 * 1000) (with_events (published data w3) w3))
    end.
Proof.
  intros c l w2 Hloop.
  set (w1 := with_settings (quota_applied data (settings w0)) w0) in *.
  assert (Hq : (match quota_used data with
                | Some q => update_settings (set_quotaUsed q)
                | None => ret tt
                end ;;
                match quota_limit data with
                | Some q => update_settings (set_quotaLimit q)
                | None => ret tt
                end) w0 = (Return tt, w1)).
  { subst w1. unfold quota_applied.
    destruct (quota_used data), (quota_limit data);
      cbv [bind update_settings update ret]; simpl;
      rewrite ?with_settings_id; reflexivity. }
  unfold poll_process.
  unfold bind at 1. unfold json at 1, ret at 1.
  unfold bind at 1. unfold bind at 1 in Hq.
  destruct (match quota_used data with
            | Some q => update_settings (set_quotaUsed q)
            | None => ret tt
            end w0) as [[[]|e] wq] eqn:Hqu;
    [|discriminate].
  unfold bind at 1. rewrite Hq.
  unfold bind at 1. unfold notes_stage in Hloop. rewrite Hloop.
  cbv zeta. simpl fst. simpl snd.
  unfold published, with_events.
  destruct l as [l|].
  - destruct ((0 <? c) && negb (String.eqb l "")) eqn:Hc; simpl cursor_advanced; rewrite Hc;
      cbv [bind when update_settings update ret saveSettings rejected_by_host get emit
           updateRibbonBadge updateQuotaPanel throw];
      destruct (saveData_fault env); rewrite ?with_settings_id; try reflexivity;
      destruct (over_quota data); reflexivity.
  - simpl cursor_advanced.
    cbv [bind when update_settings update ret saveSettings rejected_by_host get emit
         updateRibbonBadge updateQuotaPanel throw];
    destruct (saveData_fault env); rewrite ?with_settings_id; try reflexivity;
    destruct (over_quota data); reflexivity.
Qed.

(** The [try] block when the request is answered: the request is sent, and
    the rest runs on the response. *)
Lemma poll_attempt_responded env w body :
  fetched env = Responded body ->
  attempt env w =
  poll_process Date_getTime env body (with_event (request_of env w) w).
Proof.
  intros H. unfold poll_attempt, download_request.
  cbv [bind get requestUrl settle emit update ret]. rewrite H. reflexivity.
Qed.

(** The answer is a response: the quota, the loop, the cursor; then the
    settings are saved, and only a rejected save makes the block throw. *)
Lemma poll_attempt_json env w data :
  fetched env = Responded (Json data) ->
  forall c l w2,
    stage env data
      (with_settings (quota_applied data (settings w))
         (with_event (request_of env w) w)) = (Return (c, l), w2) ->
    let w3 := with_settings (cursor_advanced c l (settings w2)) w2 in
    attempt env w =
    match saveData_fault env with
    | Some msg => (Throw {| message := msg |}, w3)
    | None =>
        (Return (c, l),
         with_retryDelay (2 * 60 * 1000) (with_events (published data w3) w3))
    end.
Proof.
  intros H c l w2 Hloop.
  rewrite (poll_attempt_responded env w (Json data) H).
  exact (poll_process_json env data (with_event (request_of env w) w) c l w2 Hloop).
Qed.

(** A poll in the foreground: its [try] block, and the backoff when that
    throws. *)
Lemma poll_visible env w :
  hidden w = false ->
  poll1 env w =
  match attempt env w with
  | (Return _, w') => (Return tt, w')
  | (Throw e, w') =>
      (Return tt,
       with_retryDelay (Z.min (retryDelay w' * 2) (maxRetryDelay w'))
         (with_events [EvConsoleError e; EvConsoleError e] w'))
  end.
Proof.
  intros H. unfold poll. unfold bind at 1. unfold get at 1. rewrite H.
  unfold try_catch. unfold bind at 1.
  destruct (attempt env w) as [[r|e] w']; reflexivity.
Qed.

Lemma poll_hidden env w : hidden w = true -> poll1 env w = (Return tt, w).
Proof.
  intros H. unfold poll. unfold bind at 1. unfold get at 1. rewrite H. reflexivity.
Qed.


(** *** What the stages leave alone *)

Lemma quota_applied_fields data s :
  lastSyncIso (quota_applied data s) = lastSyncIso s /\
  importsThisMonth (quota_applied data s) = importsThisMonth s /\
  quotaUsed (quota_applied data s) = default (quotaUsed s) (quota_used data) /\
  quotaLimit (quota_applied data s) = default (quotaLimit s) (quota_limit data).
Proof.
  unfold quota_applied. destruct (quota_used data), (quota_limit data);
    destruct s; simpl; repeat split; reflexivity.
Qed.

Lemma with_events_trace evs : forall w, trace (with_events evs w) = trace w ++ evs.
Proof.
  unfold with_events. induction evs as [|e evs IH]; intros w; simpl.
  - now rewrite app_nil_r.
  - rewrite IH. simpl. now rewrite <- app_assoc.
Qed.

Lemma with_events_same_plugin evs : forall w, same_plugin w (with_events evs w).
Proof.
  unfold with_events. induction evs as [|e evs IH]; intros w; simpl.
  - reflexivity.
  - etrans; [|apply IH]. repeat split.
Qed.

Lemma with_events_vault evs : forall w, vault (with_events evs w) = vault w.
Proof.
  unfold with_events. induction evs as [|e evs IH]; intros w; simpl;
    [reflexivity | now rewrite IH].
Qed.


(** ** Properties of a poll *)

(** C8. A poll invoked while the document is hidden does nothing: it
    returns normally and leaves the world as it is, so no request is sent
    and no cursor, quota, delay or file changes. *)
Theorem poll_hidden_is_noop env w :
  hidden w = true ->
  poll Date_getTime Date_toISOString env w = (Return tt, w).
Proof. apply poll_hidden. Qed.

(** C4. A poll whose request is rejected, or whose response body cannot be
    read, returns normally; it sends the request, logs the error and doubles
    the retry delay up to the maximum, and changes nothing else: the
    settings (cursor, quota, count of imports), the vault and the timer that
    schedules the following polls are as before. *)
Theorem poll_fetch_failure_backs_off env w msg :
  hidden w = false ->
  fetched env = Rejected msg \/ fetched env = Responded (NotJson msg) ->
  poll Date_getTime Date_toISOString env w =
    (Return tt,
     with_retryDelay (Z.min (retryDelay w * 2) (maxRetryDelay w))
       (with_events [download_request Date_toISOString env w;
                     EvConsoleError {| message := msg |};
                     EvConsoleError {| message := msg |}] w)) /\
  let w' := snd (poll Date_getTime Date_toISOString env w) in
  lastSyncIso (settings w') = lastSyncIso (settings w) /\
  quotaUsed (settings w') = quotaUsed (settings w) /\
  quotaLimit (settings w') = quotaLimit (settings w) /\
  importsThisMonth (settings w') = importsThisMonth (settings w) /\
  vault w' = vault w /\
  retryDelay w' = Z.min (2 * retryDelay w) (maxRetryDelay w) /\
  maxRetryDelay w' = maxRetryDelay w /\
  pollingInterval w' = pollingInterval w /\
  intervals w' = intervals w /\
  scheduled_delay w' = scheduled_delay w.
Proof.
  intros Hvis Hfail.
  assert (Hattempt : attempt env w =
    (Throw {| message := msg |}, with_event (request_of env w) w)).
  { destruct Hfail as [H|H];
      [now apply poll_attempt_rejected | now apply poll_attempt_not_json]. }
  rewrite (poll_visible env w Hvis), Hattempt. simpl.
  repeat split. f_equal. lia.
Qed.

(** C3, as the code has it. After a poll whose [try] block throws, the
    retry delay is min(2 x previous delay, maxRetryDelay); after a poll
    whose [try] block completes it is 120000 ms (two minutes), whatever it
    was: not the 10000 ms the field starts with. *)
Theorem poll_retry_delay env w :
  hidden w = false ->
  match fst (poll_attempt Date_getTime Date_toISOString env w) with
  | Throw _ =>
      retryDelay (snd (poll Date_getTime Date_toISOString env w)) =
      Z.min (2 * retryDelay w) (maxRetryDelay w)
  | Return _ =>
      retryDelay (snd (poll Date_getTime Date_toISOString env w)) =
      2 * 60 * 1000
  end.
Proof.
  intros Hvis. rewrite (poll_visible env w Hvis).
  destruct (fetched env) as [msg|[msg|data]] eqn:Hf.
  - rewrite (poll_attempt_rejected env w msg Hf). simpl. f_equal. lia.
  - rewrite (poll_attempt_not_json env w msg Hf). simpl. f_equal. lia.
  - destruct (notes_stage_spec env data
      (with_settings (quota_applied data (settings w))
         (with_event (request_of env w) w)))
      as (c & l & w2 & Heq & Hsame & _).
    rewrite (poll_attempt_json env w data Hf c l w2 Heq).
    destruct Hsame as (_ & _ & Hr & Hm & _).
    destruct (saveData_fault env); simpl.
    + simpl in Hr, Hm. rewrite Hr, Hm. f_equal. lia.
    + reflexivity.
Qed.

(** C7. A successful poll whose response is an empty list of notes with
    [over_quota] set: the vault is unchanged (no file is created), the
    cursor and the count of imports are unchanged, the paywall modal is
    opened, and each of [quota_used] and [quota_limit] overwrites the stored
    value when the response has it and leaves it otherwise. *)
Theorem poll_over_quota_without_notes env w data :
  hidden w = false ->
  fetched env = Responded (Json data) ->
  notes data = Some [] ->
  over_quota data = true ->
  saveData_fault env = None ->
  let w' := snd (poll Date_getTime Date_toISOString env w) in
  let s' := quota_applied data (settings w) in
  fst (poll Date_getTime Date_toISOString env w) = Return tt /\
  vault w' = vault w /\
  lastSyncIso (settings w') = lastSyncIso (settings w) /\
  importsThisMonth (settings w') = importsThisMonth (settings w) /\
  quotaUsed (settings w') = default (quotaUsed (settings w)) (quota_used data) /\
  quotaLimit (settings w') = default (quotaLimit (settings w)) (quota_limit data) /\
  trace w' =
    trace w ++
    [download_request Date_toISOString env w;
     EvSaveData s';
     EvBadge (if 0 <? importsThisMonth s' then Some (importsThisMonth s') else None);
     EvQuotaPanel (quotaUsed s') (quotaLimit s') (importsThisMonth s');
     EvModal PaywallModal].
Proof.
  intros Hvis Hf Hnotes Hover Hsave.
  rewrite (poll_visible env w Hvis).
  set (w1 := with_settings (quota_applied data (settings w))
               (with_event (request_of env w) w)).
  assert (Hloop : stage env data w1 = (Return (0, None), w1)).
  { unfold notes_stage. rewrite Hnotes. reflexivity. }
  rewrite (poll_attempt_json env w data Hf 0 None w1 Hloop), Hsave.
  destruct (quota_applied_fields data (settings w)) as (Hc & Hi & Hu & Hl).
  subst w1. unfold published. rewrite Hover. cbn.
  repeat split; auto.
  rewrite <- !app_assoc. reflexivity.
Qed.


(** *** The cursor *)

Lemma same_but_imports_cursor w w' :
  same_but_imports w w' -> lastSyncIso (settings w') = lastSyncIso (settings w).
Proof.
  intros (Hs & _).
  change (lastSyncIso (set_importsThisMonth 0 (settings w')) =
          lastSyncIso (set_importsThisMonth 0 (settings w))).
  now rewrite Hs.
Qed.

(** The settings after a poll that got a response: those of the loop's end
    with the cursor advanced, whether or not saving them then failed. *)
Lemma poll_json_settings env w data c l w2 :
  hidden w = false ->
  fetched env = Responded (Json data) ->
  stage env data
    (with_settings (quota_applied data (settings w))
       (with_event (request_of env w) w)) = (Return (c, l), w2) ->
  settings (snd (poll1 env w)) = cursor_advanced c l (settings w2) /\
  vault (snd (poll1 env w)) = vault w2.
Proof.
  intros Hvis Hf Heq.
  rewrite (poll_visible env w Hvis), (poll_attempt_json env w data Hf c l w2 Heq).
  destruct (saveData_fault env); cbn [fst snd]; [split; reflexivity|].
  unfold with_retryDelay. cbn [settings vault].
  destruct (with_events_same_plugin
    (published data (with_settings (cursor_advanced c l (settings w2)) w2))
    (with_settings (cursor_advanced c l (settings w2)) w2)) as (Hs & _).
  rewrite Hs, with_events_vault. split; reflexivity.
Qed.

(** A poll leaves the cursor where it is or moves it to the date of a note
    of its response; it does not compare that date with the cursor. *)
Lemma poll_cursor_cases env w :
  lastSyncIso (settings (snd (poll1 env w))) = lastSyncIso (settings w) \/
  exists data note,
    fetched env = Responded (Json data) /\ In note (notes_of data) /\
    created_iso note <> "" /\
    lastSyncIso (settings (snd (poll1 env w))) = created_iso note.
Proof.
  destruct (hidden w) eqn:Hvis.
  { left. now rewrite poll_hidden. }
  destruct (fetched env) as [msg|[msg|data]] eqn:Hf.
  - left. rewrite (poll_visible env w Hvis), (poll_attempt_rejected env w msg Hf).
    reflexivity.
  - left. rewrite (poll_visible env w Hvis), (poll_attempt_not_json env w msg Hf).
    reflexivity.
  - destruct (notes_stage_spec env data
      (with_settings (quota_applied data (settings w))
         (with_event (request_of env w) w)))
      as (c & l & w2 & Heq & Hsame & _ & _ & _ & _ & Hl).
    destruct (poll_json_settings env w data c l w2 Hvis Hf Heq) as (Hs & _).
    rewrite Hs. apply same_but_imports_cursor in Hsame. simpl in Hsame.
    destruct (quota_applied_fields data (settings w)) as (Hq & _).
    rewrite Hq in Hsame.
    unfold cursor_advanced.
    destruct Hl as [->|(note & Hin & ->)]; [now left|].
    destruct ((0 <? c) && negb (String.eqb (created_iso note) "")) eqn:Hc;
      [|now left].
    right. exists data, note. repeat split; auto.
    apply andb_true_iff in Hc as [_ Hc]. apply negb_true_iff in Hc.
    now apply String.eqb_neq.
Qed.

Lemma poll_cursor_step env w :
  answers_since Date_getTime env w = true ->
  lastSyncIso (settings (snd (poll1 env w))) = lastSyncIso (settings w) \/
  (lastSyncIso (settings (snd (poll1 env w))) <> "" /\
   (lastSyncIso (settings w) = "" \/
    leq_date (lastSyncIso (settings w))
             (lastSyncIso (settings (snd (poll1 env w)))) = true)).
Proof.
  intros Hans.
  destruct (poll_cursor_cases env w) as [H|(data & note & Hf & Hin & Hne & H)];
    [now left|].
  right. rewrite H. split; [exact Hne|].
  unfold answers_since in Hans. rewrite Hf in Hans.
  rewrite forallb_forall in Hans. specialize (Hans note Hin).
  unfold not_before in Hans. apply orb_true_iff in Hans as [Hans|Hans];
    [left; now apply String.eqb_eq | now right].
Qed.

(** Polls that do not overlap and whose responses keep to their [since]
    never move the cursor back. *)
Lemma polls_cursor_non_decreasing envs : forall w,
  all_answer_since Date_getTime Date_toISOString envs w = true ->
  cursor_leb Date_getTime (lastSyncIso (settings w))
                          (lastSyncIso (settings (run envs w))) = true.
Proof.
  unfold cursor_leb.
  induction envs as [|env rest IH]; intros w Hall; simpl.
  - now rewrite String.eqb_refl.
  - simpl in Hall. apply andb_true_iff in Hall as [Hans Hrest].
    specialize (IH _ Hrest).
    destruct (poll_cursor_step env w Hans) as [Heq|(Hne & Hle)].
    + now rewrite Heq in IH.
    + destruct Hle as [He|Hle].
      { apply orb_true_iff. left. apply orb_true_iff. right.
        now apply String.eqb_eq. }
      apply orb_true_iff in IH as [IH|IH];
        [apply orb_true_iff in IH as [IH|IH]|].
      * apply String.eqb_eq in IH. rewrite <- IH, Hle. apply orb_true_r.
      * apply String.eqb_eq in IH. contradiction.
      * rewrite (date_leb_trans _ _ _ Hle IH). apply orb_true_r.
Qed.

(** *** Polls in flight *)

Local Abbreviation send := (poll_send Date_toISOString).
Local Abbreviation settle_poll := (poll_settle Date_getTime).
Local Abbreviation step1 := (step Date_getTime Date_toISOString).
Local Abbreviation run_all := (run_steps Date_getTime Date_toISOString).

Lemma poll_send_hidden env w : hidden w = true -> send env w = (Return false, w).
Proof.
  intros H. unfold poll_send. unfold bind at 1. unfold get at 1. rewrite H. reflexivity.
Qed.

Lemma poll_send_visible env w :
  hidden w = false -> send env w = (Return true, with_event (request_of env w) w).
Proof.
  intros H. unfold poll_send. unfold bind at 1. unfold get at 1. rewrite H. reflexivity.
Qed.

(** What the [catch] block does. *)
Lemma poll_failed_world e w :
  poll_failed e w =
  (Return tt,
   with_retryDelay (Z.min (retryDelay w * 2) (maxRetryDelay w))
     (with_events [EvConsoleError e; EvConsoleError e] w)).
Proof. reflexivity. Qed.

(** The second half of a poll, by what its request settles to. *)
Lemma poll_settle_cases env w :
  settle_poll env w =
  match fetched env with
  | Rejected msg => poll_failed {| message := msg |} w
  | Responded body =>
      match poll_process Date_getTime env body w with
      | (Return _, w') => (Return tt, w')
      | (Throw e, w') => poll_failed e w'
      end
  end.
Proof.
  unfold poll_settle, try_catch. unfold bind at 1. unfold settle.
  destruct (fetched env) as [msg|body]; [reflexivity|].
  unfold ret at 1. unfold bind at 1.
  destruct (poll_process Date_getTime env body w) as [[r|e] w']; reflexivity.
Qed.

(** A poll is its two halves, the second one run as soon as the first is
    over. *)
Lemma poll_halves env w :
  poll1 env w =
  match send env w with
  | (Return true, w1) => settle_poll env w1
  | (_, w1) => (Return tt, w1)
  end.
Proof.
  destruct (hidden w) eqn:Hvis.
  - rewrite poll_hidden, poll_send_hidden by exact Hvis. reflexivity.
  - rewrite (poll_visible env w Hvis), (poll_send_visible env w Hvis), poll_settle_cases.
    destruct (fetched env) as [msg|body] eqn:Hf.
    + rewrite (poll_attempt_rejected env w msg Hf). reflexivity.
    + rewrite (poll_attempt_responded env w body Hf).
      destruct (poll_process Date_getTime env body (with_event (request_of env w) w))
        as [[r|e] w']; reflexivity.
Qed.

(** The settings after the second half of a poll whose request got a
    response: those of the loop's end with the cursor advanced. *)
Lemma poll_settle_json_settings env w data c l w2 :
  fetched env = Responded (Json data) ->
  stage env data (with_settings (quota_applied data (settings w)) w) =
    (Return (c, l), w2) ->
  settings (snd (settle_poll env w)) = cursor_advanced c l (settings w2).
Proof.
  intros Hf Heq.
  rewrite poll_settle_cases, Hf, (poll_process_json env data w c l w2 Heq).
  destruct (saveData_fault env); [reflexivity|].
  cbn [fst snd]. unfold with_retryDelay. cbn [settings].
  now destruct (with_events_same_plugin
    (published data (with_settings (cursor_advanced c l (settings w2)) w2))
    (with_settings (cursor_advanced c l (settings w2)) w2)) as (-> & _).
Qed.

(** The second half of a poll leaves the cursor as it finds it or moves it
    to the date of a note of the response; it does not compare the two. *)
Lemma poll_settle_cursor_cases env w :
  lastSyncIso (settings (snd (settle_poll env w))) = lastSyncIso (settings w) \/
  exists data note,
    fetched env = Responded (Json data) /\ In note (notes_of data) /\
    created_iso note <> "" /\
    lastSyncIso (settings (snd (settle_poll env w))) = created_iso note.
Proof.
  destruct (fetched env) as [msg|[msg|data]] eqn:Hf.
  - left. rewrite poll_settle_cases, Hf. reflexivity.
  - left. rewrite poll_settle_cases, Hf. reflexivity.
  - destruct (notes_stage_spec env data
      (with_settings (quota_applied data (settings w)) w))
      as (c & l & w2 & Heq & Hsame & _ & _ & _ & _ & Hl).
    rewrite (poll_settle_json_settings env w data c l w2 Hf Heq).
    apply same_but_imports_cursor in Hsame. simpl in Hsame.
    destruct (quota_applied_fields data (settings w)) as (Hq & _).
    rewrite Hq in Hsame.
    unfold cursor_advanced.
    destruct Hl as [->|(note & Hin & ->)]; [now left|].
    destruct ((0 <? c) && negb (String.eqb (created_iso note) "")) eqn:Hc;
      [|now left].
    right. exists data, note. repeat split; auto.
    apply andb_true_iff in Hc as [_ Hc]. apply negb_true_iff in Hc.
    now apply String.eqb_neq.
Qed.

(** The order on cursors is kept by a step that leaves the cursor or moves
    it to a dated value not before it. *)
Lemma cursor_leb_step a b c :
  b = a \/ (b <> "" /\ (a = "" \/ leq_date a b = true)) ->
  cursor_leb Date_getTime b c = true ->
  cursor_leb Date_getTime a c = true.
Proof.
  unfold cursor_leb. intros [->|(Hne & Hle)] H; [exact H|].
  destruct Hle as [He|Hle].
  { apply orb_true_iff. left. apply orb_true_iff. right. now apply String.eqb_eq. }
  apply orb_true_iff in H as [H|H]; [apply orb_true_iff in H as [H|H]|].
  - apply String.eqb_eq in H. rewrite <- H, Hle. apply orb_true_r.
  - apply String.eqb_eq in H. contradiction.
  - rewrite (date_leb_trans _ _ _ Hle H). apply orb_true_r.
Qed.

Lemma run_steps_cursor steps : forall r,
  alone_in_flight Date_getTime r ->
  one_at_a_time Date_getTime Date_toISOString steps r = true ->
  answered_since Date_getTime Date_toISOString steps r = true ->
  cursor_leb Date_getTime (lastSyncIso (settings (world r)))
    (lastSyncIso (settings (world (run_all steps r)))) = true.
Proof.
  induction steps as [|s rest IH]; intros r Hinv Hone Hans.
  - simpl. unfold cursor_leb. now rewrite String.eqb_refl.
  - cbn [one_at_a_time answered_since] in Hone, Hans.
    apply andb_true_iff in Hone as [Hnow Hone].
    apply andb_true_iff in Hans as [Hhonest Hans].
    cbn [run_steps].
    assert (Hstep :
      alone_in_flight Date_getTime (step1 s r) /\
      (lastSyncIso (settings (world (step1 s r))) = lastSyncIso (settings (world r)) \/
       (lastSyncIso (settings (world (step1 s r))) <> "" /\
        (lastSyncIso (settings (world r)) = "" \/
         leq_date (lastSyncIso (settings (world r)))
                  (lastSyncIso (settings (world (step1 s r)))) = true)))).
    { destruct s as [id env|id].
      - apply bool_decide_eq_true in Hnow.
        unfold step. rewrite Hnow, lookup_empty.
        destruct (hidden (world r)) eqn:Hvis.
        + rewrite (poll_send_hidden env _ Hvis). cbn [world in_flight].
          split; [|now left].
          intros i e. cbn [in_flight]. rewrite ?Hnow, lookup_empty. discriminate.
        + rewrite (poll_send_visible env _ Hvis). cbn [world in_flight].
          split; [|now left].
          intros i e. cbn [in_flight world]. rewrite ?Hnow.
          intros Hi. apply lookup_insert_Some in Hi as [[<- <-]|[_ Hi]].
          * split; [reflexivity | exact Hhonest].
          * rewrite lookup_empty in Hi. discriminate.
      - unfold step. destruct (in_flight r !! id) as [env|] eqn:Hid.
        + destruct (Hinv id env Hid) as (Hmap & Hhon).
          cbn [world in_flight]. split.
          * intros i e. cbn [in_flight].
            rewrite Hmap, delete_singleton_eq, lookup_empty. discriminate.
          * destruct (poll_settle_cursor_cases env (world r))
              as [H|(data & note & Hf & Hin & Hne & H)]; [now left|].
            right. rewrite H. split; [exact Hne|].
            unfold answers_since in Hhon. rewrite Hf in Hhon.
            rewrite forallb_forall in Hhon. specialize (Hhon note Hin).
            unfold not_before in Hhon.
            apply orb_true_iff in Hhon as [Hhon|Hhon];
              [left; now apply String.eqb_eq | now right].
        + split; [exact Hinv | now left]. }
    destruct Hstep as (Hinv' & Hcursor).
    exact (cursor_leb_step _ _ _ Hcursor (IH _ Hinv' Hone Hans)).
Qed.


(** Polls one after the other are the runs of [polls]. *)
Lemma in_turn_polls envs : forall id w,
  run_all (in_turn id envs) (at_rest w) = at_rest (run envs w) /\
  one_at_a_time Date_getTime Date_toISOString (in_turn id envs) (at_rest w) = true /\
  (all_answer_since Date_getTime Date_toISOString envs w = true ->
   answered_since Date_getTime Date_toISOString (in_turn id envs) (at_rest w) = true).
Proof.
  induction envs as [|env rest IH]; intros id w.
  - repeat split.
  - assert (Hpair : step1 (Settle id) (step1 (Begin id env) (at_rest w)) =
                    at_rest (snd (poll1 env w))).
    { rewrite poll_halves. unfold step, at_rest. cbn [in_flight world].
      rewrite lookup_empty.
      destruct (hidden w) eqn:Hvis.
      - rewrite (poll_send_hidden env w Hvis). cbn [in_flight world].
        rewrite lookup_empty. reflexivity.
      - rewrite (poll_send_visible env w Hvis). cbn [in_flight world].
        rewrite lookup_insert_eq. cbn [in_flight world].
        rewrite delete_insert_eq, delete_empty. reflexivity. }
    cbn [in_turn run_steps one_at_a_time answered_since polls all_answer_since].
    rewrite Hpair. destruct (IH (S id) (snd (poll1 env w))) as (Hrun & Hone & Hans).
    split; [exact Hrun|]. split.
    + rewrite Hone. cbn [at_rest in_flight].
      rewrite bool_decide_eq_true_2 by reflexivity. reflexivity.
    + intros Hall. apply andb_true_iff in Hall as [Hnow Hall].
      rewrite (Hans Hall). cbn [at_rest world]. rewrite Hnow.
      now rewrite orb_true_r.
Qed.

(** *** The timer *)

(** A poll does not touch the interval that schedules it. *)
Lemma poll_keeps_timer env w :
  pollingInterval (snd (poll1 env w)) = pollingInterval w /\
  intervals (snd (poll1 env w)) = intervals w /\
  scheduled_delay (snd (poll1 env w)) = scheduled_delay w.
Proof.
  assert (H : pollingInterval (snd (poll1 env w)) = pollingInterval w /\
              intervals (snd (poll1 env w)) = intervals w).
  { destruct (hidden w) eqn:Hvis.
    { rewrite poll_hidden by exact Hvis. split; reflexivity. }
    rewrite (poll_visible env w Hvis).
    destruct (fetched env) as [msg|[msg|data]] eqn:Hf.
    - rewrite (poll_attempt_rejected env w msg Hf). split; reflexivity.
    - rewrite (poll_attempt_not_json env w msg Hf). split; reflexivity.
    - destruct (notes_stage_spec env data
        (with_settings (quota_applied data (settings w))
           (with_event (request_of env w) w)))
        as (c & l & w2 & Heq & Hsame & _).
      rewrite (poll_attempt_json env w data Hf c l w2 Heq).
      destruct Hsame as (_ & Hp & _ & _ & _ & Hi & _). simpl in Hp, Hi.
      destruct (saveData_fault env); cbn [fst snd]; [split; assumption|].
      unfold with_retryDelay. cbn [pollingInterval intervals].
      destruct (with_events_same_plugin
        (published data (with_settings (cursor_advanced c l (settings w2)) w2))
        (with_settings (cursor_advanced c l (settings w2)) w2))
        as (_ & Hp' & _ & _ & _ & Hi' & _).
      rewrite Hp', Hi'. split; assumption. }
  destruct H as (Hp & Hi). unfold scheduled_delay. rewrite Hp, Hi.
  repeat split; reflexivity.
Qed.


(** *** Counting the notes *)

Lemma cursor_advanced_fields c l s :
  importsThisMonth (cursor_advanced c l s) = importsThisMonth s /\
  quotaUsed (cursor_advanced c l s) = quotaUsed s /\
  quotaLimit (cursor_advanced c l s) = quotaLimit s.
Proof.
  unfold cursor_advanced. destruct l as [l|]; [|repeat split].
  destruct ((0 <? c) && negb (String.eqb l "")); repeat split.
Qed.

Lemma cursor_advanced_cursor c l s s' :
  lastSyncIso s' = lastSyncIso s ->
  lastSyncIso (cursor_advanced c l s') = lastSyncIso (cursor_advanced c l s).
Proof.
  intros H. unfold cursor_advanced. destruct l as [l|]; [|exact H].
  destruct ((0 <? c) && negb (String.eqb l "")); [reflexivity | exact H].
Qed.


End SyncProperties.

(** ** Registration *)

Section RegistrationProperties.

Variable manifest_version : string.
Variable JSON_stringify : RegistrationResponse -> string.

Local Abbreviation attempt := (register_attempt manifest_version JSON_stringify).
Local Abbreviation register := (registerWithService manifest_version JSON_stringify).
Local Abbreviation request := (register_request manifest_version).
Local Abbreviation invalid := (invalid_response JSON_stringify).

Lemma present_falsy field : present field = None <-> Js.falsy field = true.
Proof.
  unfold present, Js.falsy. destruct field as [s|]; [|tauto].
  destruct (String.eqb s ""); split; congruence.
Qed.

(** The validation: a required field that is missing or empty makes the
    [try] block throw, before anything is written. *)
Lemma register_attempt_invalid env rotate w data :
  answer env = Responded (Json data) ->
  Js.falsy (email_address data) || Js.falsy (passkey data) || Js.falsy (vault_id data) = true ->
  attempt env rotate w =
  (Throw (invalid data), with_event (request rotate w) w).
Proof.
  intros Ha Hmiss. unfold register_attempt, register_request.
  cbv [bind get requestUrl settle emit update json ret]. rewrite Ha.
  apply orb_true_iff in Hmiss as [Hmiss|Hv].
  - apply orb_true_iff in Hmiss as [He|Hp].
    + apply present_falsy in He. rewrite He. reflexivity.
    + apply present_falsy in Hp. rewrite Hp.
      destruct (present (email_address data)); reflexivity.
  - apply present_falsy in Hv. rewrite Hv.
    destruct (present (email_address data)), (present (passkey data)); reflexivity.
Qed.

(** C5. A registration whose response lacks one of the three required
    fields ([email_address], [passkey], [vault_id]: missing or empty) fails
    with the error [Invalid response data: ...]: the [try] block throws it
    right after the request, the handler logs it and shows a notice, and
    nothing else happens. The settings, and so the stored [uid], [jwt] and
    [alias], are as before, and nothing is saved. *)
Theorem register_rejects_incomplete_response env rotate w data :
  answer env = Responded (Json data) ->
  Js.falsy (email_address data) || Js.falsy (passkey data) || Js.falsy (vault_id data) = true ->
  let error := invalid data in
  let w' := snd (register env rotate w) in
  fst (attempt env rotate w) = Throw error /\
  String.prefix "Invalid response data: " (message error) = true /\
  register env rotate w =
    (Return tt,
     with_events [request rotate w; EvConsoleError error;
                  EvNotice (errorMessage error); EvConsoleError error] w) /\
  uid (settings w') = uid (settings w) /\
  jwt (settings w') = jwt (settings w) /\
  alias (settings w') = alias (settings w) /\
  settings w' = settings w.
Proof.
  intros Ha Hmiss error w'.
  assert (Hreg : register env rotate w =
    (Return tt,
     with_events [request rotate w; EvConsoleError error;
                  EvNotice (errorMessage error); EvConsoleError error] w)).
  { unfold registerWithService, try_catch.
    fold (attempt env rotate w).
    rewrite (register_attempt_invalid env rotate w data Ha Hmiss). reflexivity. }
  split; [now rewrite (register_attempt_invalid env rotate w data Ha Hmiss)|].
  split.
  { subst error. unfold invalid_response. simpl.
    destruct (JSON_stringify data); reflexivity. }
  split; [exact Hreg|].
  subst w'. rewrite Hreg. repeat split.
Qed.

(** The notice of that failure says the server returned invalid data,
    unless the text of the response happens to contain the word the handler
    takes for a network failure. *)
Lemma invalid_response_notice data :
  Js.includes "fetch" (JSON_stringify data) = false ->
  errorMessage (invalid data) =
  "Failed to register with SendToVault. Server returned invalid data.".
Proof.
  intros H. unfold errorMessage, invalid_response. simpl message.
  assert (Hf : Js.includes "fetch" ("Invalid response data: " +:+ JSON_stringify data) = false).
  { simpl. exact H. }
  rewrite Hf. reflexivity.
Qed.

End RegistrationProperties.

(** ** Concrete runs *)

Section Examples.

Import Scenario.

Local Abbreviation poll := (poll IsoDate.getTime IsoDate.toISOString).
Local Abbreviation poll_attempt := (poll_attempt IsoDate.getTime IsoDate.toISOString).
Local Abbreviation polls := (polls IsoDate.getTime IsoDate.toISOString).
Local Abbreviation startPolling := (startPolling IsoDate.getTime IsoDate.toISOString).
Local Abbreviation interval_tick := (interval_tick IsoDate.getTime IsoDate.toISOString).
Local Abbreviation run_steps := (run_steps IsoDate.getTime IsoDate.toISOString).
Local Abbreviation one_at_a_time := (one_at_a_time IsoDate.getTime IsoDate.toISOString).
Local Abbreviation answered_since := (answered_since IsoDate.getTime IsoDate.toISOString).



(** Why the polls must not overlap. Two polls are entered at the cursor of
    1 March, the second while the first waits for its response. Each
    response keeps to the [since] of its request. The first to settle moves
    the cursor to 2 March 09:30; the second then moves it back to 1 March
    12:00. *)
Lemma overlapping_polls_move_the_cursor_back :
  let w := plugin "2024-03-01T00:00:00.000Z" inbox_only in
  let steps := [Begin 0 (answer_with [minutes]); Begin 1 (answer_with [report]);
                Settle 0; Settle 1] in
  let first := world (run_steps (firstn 3 steps) (at_rest w)) in
  let last := world (run_steps steps (at_rest w)) in
  answered_since steps (at_rest w) = true /\
  one_at_a_time steps (at_rest w) = false /\
  lastSyncIso (settings first) = "2024-03-02T09:30:00.000Z" /\
  lastSyncIso (settings last) = "2024-03-01T12:00:00.000Z" /\
  cursor_leb IsoDate.getTime (lastSyncIso (settings first)) (lastSyncIso (settings last)) = false.
Proof. vm_compute. repeat split. Qed.

(** C2 on the code: the host rejects the creation of the note's file.
    [saveNote] catches that and returns, so the loop counts the note: no
    file is there after the poll (none of the one note is materialized),
    yet [importsThisMonth] has grown by one and the cursor has moved to the
    date of the note that was not saved. *)
Theorem failed_write_is_counted :
  let w := plugin "" inbox_only in
  let w' := snd (poll (read_only [report]) w) in
  fst (poll_attempt (read_only [report]) w) = Return (1, Some "2024-03-01T12:00:00.000Z") /\
  vault w' = vault w /\
  file_content (vault w') (note_filename report) = None /\
  In (EvNotice "Failed to save note: Report: Q1/Q2") (trace w') /\
  importsThisMonth (settings w) = 0 /\
  importsThisMonth (settings w') = 1 /\
  lastSyncIso (settings w) = "" /\
  lastSyncIso (settings w') = "2024-03-01T12:00:00.000Z".
Proof.
  vm_compute. repeat split. right. right. left. reflexivity.
Qed.

(** C3 does not hold of the successful poll: after it the delay is 120000
    ms, not the 10000 ms [retryDelay] starts with. *)
Lemma success_delay_is_not_the_initial_delay :
  let w := plugin "" inbox_only in
  fst (poll_attempt (answer_with []) w) = Return (0, None) /\
  retryDelay w = 10000 /\
  retryDelay (snd (poll (answer_with []) w)) = 120000 /\
  retryDelay (snd (poll (answer_with []) w)) <> retryDelay w.
Proof. vm_compute. repeat split. discriminate. Qed.

Lemma poll_retry_delay_witness :
  let w := plugin "" inbox_only in
  hidden w = false /\
  retryDelay (snd (poll offline w)) = Z.min (2 * retryDelay w) (maxRetryDelay w) /\
  retryDelay (snd (poll (answer_with [report]) w)) = 2 * 60 * 1000.
Proof.
  split; [reflexivity|]. split.
  - exact (poll_retry_delay IsoDate.getTime IsoDate.toISOString offline
             (plugin "" inbox_only) eq_refl).
  - exact (poll_retry_delay IsoDate.getTime IsoDate.toISOString (answer_with [report])
             (plugin "" inbox_only) eq_refl).
Defined.

Lemma poll_fetch_failure_witness :
  let w := plugin "2024-03-01T00:00:00.000Z" inbox_only in
  let w' := snd (poll offline w) in
  hidden w = false /\
  fetched offline = Rejected "net::ERR_INTERNET_DISCONNECTED" /\
  settings w' = settings w /\ vault w' = vault w /\ retryDelay w' = 20000.
Proof.
  split; [reflexivity|]. split; [reflexivity|].
  destruct (poll_fetch_failure_backs_off IsoDate.getTime IsoDate.toISOString offline
              (plugin "2024-03-01T00:00:00.000Z" inbox_only)
              "net::ERR_INTERNET_DISCONNECTED" eq_refl (or_introl eq_refl))
    as (Heq & _).
  cbv zeta. rewrite Heq. repeat split.
Defined.

Lemma poll_over_quota_witness :
  let w := plugin "2024-03-01T00:00:00.000Z" inbox_only in
  let w' := snd (poll over_quota_answer w) in
  hidden w = false /\
  notes over_quota_response = Some [] /\
  over_quota over_quota_response = true /\
  vault w' = vault w /\
  lastSyncIso (settings w') = lastSyncIso (settings w) /\
  quotaUsed (settings w') = 100 /\
  quotaLimit (settings w') = quotaLimit (settings w).
Proof.
  split; [reflexivity|]. split; [reflexivity|]. split; [reflexivity|].
  destruct (poll_over_quota_without_notes IsoDate.getTime IsoDate.toISOString
              over_quota_answer (plugin "2024-03-01T00:00:00.000Z" inbox_only)
              over_quota_response eq_refl eq_refl eq_refl eq_refl eq_refl)
    as (_ & Hv & Hc & _ & Hu & Hl & _).
  cbv zeta. repeat split; assumption.
Defined.

Lemma poll_hidden_witness :
  let w := with_hidden true (plugin "" inbox_only) in
  hidden w = true /\ poll (answer_with [report]) w = (Return tt, w).
Proof.
  split; [reflexivity|].
  apply (poll_hidden_is_noop IsoDate.getTime IsoDate.toISOString). reflexivity.
Defined.

(** C9 on the code: [startPolling] sets the interval with the delay of
    that moment, 10000 ms for a fresh plugin, and no poll sets it again. The
    first poll fails and a second one too: [retryDelay] is 20000 and then
    40000 ms, and after a successful poll 120000 ms, while the timer that
    schedules the next poll keeps its 10000 ms. *)
Theorem timer_keeps_its_first_delay :
  let w0 := plugin "" inbox_only in
  let w1 := snd (startPolling offline w0) in
  let w2 := snd (interval_tick offline w1) in
  let w3 := snd (interval_tick (answer_with []) w2) in
  retryDelay w0 = 10000 /\
  (retryDelay w1 = 20000 /\ scheduled_delay w1 = Some 10000) /\
  (retryDelay w2 = 40000 /\ scheduled_delay w2 = Some 10000) /\
  (retryDelay w3 = 120000 /\ scheduled_delay w3 = Some 10000).
Proof. vm_compute. repeat split. Qed.



(** Why the count must stay within 2^53: from there on [++] on a double no
    longer adds one. The plugin has counted 2^53 imports; a poll brings one
    note and counts it, and [importsThisMonth] is as before. Two further
    on, [++] adds two. *)
Lemma count_stalls_at_2_53 :
  let w0 := plugin "" inbox_only in
  let w := with_settings (set_importsThisMonth (2 ^ 53) (settings w0)) w0 in
  let w' := snd (poll (answer_with [report]) w) in
  fst (poll_attempt (answer_with [report]) w) =
    Return (1, Some "2024-03-01T12:00:00.000Z") /\
  importsThisMonth (settings w') = importsThisMonth (settings w) /\
  counts_exactly (importsThisMonth (settings w)) 1 = false /\
  increment (2 ^ 53 + 2) = 2 ^ 53 + 4.
Proof. vm_compute. repeat split. Qed.

(** *** [saveNote] and registration *)

Lemma saveNote_materializes_witness :
  let w := plugin "" ∅ in
  let w1 := snd (saveNote no_fault report w) in
  createFolder_fault no_fault = None /\
  create_fault no_fault = None /\
  modify_fault no_fault = None /\
  note_filename report = "Inbox/Report_ Q1_Q2.md" /\
  vault w !! note_filename report = None /\
  file_content (vault w1) "Inbox/Report_ Q1_Q2.md" = Some "# Report" /\
  vault (snd (saveNote no_fault report w1)) = vault w1.
Proof.
  split; [reflexivity|]. split; [reflexivity|]. split; [reflexivity|].
  split; [reflexivity|]. split; [reflexivity|].
  destruct (saveNote_materializes no_fault report (plugin "" ∅) eq_refl eq_refl eq_refl)
    as (_ & _ & Hnew & _ & Htwice).
  cbv zeta. split.
  - apply Hnew. reflexivity.
  - apply Htwice. vm_compute. discriminate.
Defined.

Lemma register_rejects_witness :
  let w := initial_plugin DEFAULT_SETTINGS ∅ in
  let w' := snd (registerWithService "1.0.0" JsonText.stringify
                   (register_answer no_passkey) false w) in
  answer (register_answer no_passkey) = Responded (Json no_passkey) /\
  passkey no_passkey = None /\
  fst (register_attempt "1.0.0" JsonText.stringify (register_answer no_passkey) false w) =
    Throw (invalid_response JsonText.stringify no_passkey) /\
  settings w' = settings w.
Proof.
  split; [reflexivity|]. split; [reflexivity|].
  destruct (register_rejects_incomplete_response "1.0.0" JsonText.stringify
              (register_answer no_passkey) false (initial_plugin DEFAULT_SETTINGS ∅)
              no_passkey eq_refl eq_refl)
    as (Hthrow & _ & _ & _ & _ & _ & Hs).
  cbv zeta. split; [exact Hthrow | exact Hs].
Defined.

End Examples.

(** * Further properties *)

(** ** [saveNote], case by case *)

(** Case analysis on a [match] whose scrutinee holds no other [match]. *)
Ltac case_innermost :=
  match goal with
  | |- context [match ?x with _ => _ end] =>
      lazymatch x with
      | context [match _ with _ => _ end] => fail
      | _ => destruct x eqn:?
      end
  end.

Lemma prefix_app s t : String.prefix s (s +:+ t) = true.
Proof.
  induction s as [|a s IH]; simpl.
  - destruct t; reflexivity.
  - destruct (ascii_dec a a); [exact IH | contradiction].
Qed.

(** The vault after [saveNote]: as it was, or with the Inbox folder, or
    with the Inbox folder and the note's file. *)
Lemma saveNote_vault_cases io note w :
  let v' := vault (snd (saveNote io note w)) in
  v' = vault w \/ v' = with_inbox (vault w) \/
  v' = <[note_filename note := FileEntry (markdown note)]> (with_inbox (vault w)).
Proof.
  pose proof (note_filename_not_inbox note) as Hne.
  cbv zeta. run_saveNote. unfold with_inbox.
  destruct (vault w !! inboxFolder) as [e|] eqn:Hin; simpl.
  - destruct (vault w !! note_filename note) as [[old|]|] eqn:Hf; simpl;
      repeat (case_innermost; simpl); auto.
  - destruct (createFolder_fault io); simpl; [auto|].
    rewrite Hin. simpl. rewrite !lookup_insert_ne by exact Hne.
    destruct (vault w !! note_filename note) as [[old|]|] eqn:Hf; simpl;
      rewrite ?lookup_insert_ne by exact Hne; rewrite ?Hf;
      repeat (case_innermost; simpl); auto.
Qed.

Lemma note_filename_in_inbox note : outside_inbox (note_filename note) = false.
Proof.
  unfold outside_inbox.
  change (note_filename note) with ("Inbox/" +:+ (sanitize (title note) +:+ ".md")).
  rewrite prefix_app. apply andb_false_r.
Qed.

#[local] Instance keeps_outside_inbox_preorder : PreOrder keeps_outside_inbox.
Proof.
  split.
  - intros w p Hp. reflexivity.
  - intros a b c Hab Hbc p Hp. rewrite (Hbc p Hp). apply Hab, Hp.
Qed.

Lemma saveNote_keeps_outside_inbox io note w :
  keeps_outside_inbox w (snd (saveNote io note w)).
Proof.
  intros p Hp.
  assert (Hi : p <> inboxFolder).
  { intros ->. discriminate Hp. }
  assert (Hf : note_filename note <> p).
  { intros <-. rewrite note_filename_in_inbox in Hp. discriminate. }
  destruct (saveNote_vault_cases io note w) as [-> | [-> | ->]].
  - reflexivity.
  - now apply with_inbox_lookup.
  - rewrite lookup_insert_ne by exact Hf. now apply with_inbox_lookup.
Qed.

(** X1. With a host that accepts everything, [saveNote] opens the file it
    writes exactly when it has just created it and [autoOpenImported] is
    set; a file that is overwritten is not opened. Either way the one notice
    is [Imported: <title>]. *)
Theorem saveNote_opens_only_new_files note w :
  vault w !! note_filename note <> Some FolderEntry ->
  trace (snd (saveNote no_fault note w)) =
  trace w ++
  match vault w !! note_filename note with
  | None =>
      if autoOpenImported (settings w) then [EvOpenFile (note_filename note)] else []
  | Some _ => []
  end ++ [EvNotice ("Imported: " +:+ title note)].
Proof.
  intros Hp. pose proof (note_filename_not_inbox note) as Hne.
  pose proof (name_of_note_file note) as Hname.
  run_saveNote. simpl.
  destruct (vault w !! inboxFolder) as [e|] eqn:Hin; simpl.
  - destruct (vault w !! note_filename note) as [[old|]|] eqn:Hf; simpl.
    + specialize (Hname (FileEntry old)). simpl in Hname.
      rewrite Hname, String.eqb_refl. simpl. rewrite Hf. reflexivity.
    + contradiction.
    + rewrite Hf. simpl. destruct (autoOpenImported (settings w)); simpl;
        rewrite <- ?app_assoc; reflexivity.
  - rewrite Hin. simpl. rewrite !lookup_insert_ne by exact Hne.
    destruct (vault w !! note_filename note) as [[old|]|] eqn:Hf; simpl.
    + specialize (Hname (FileEntry old)). simpl in Hname.
      rewrite Hname, String.eqb_refl. simpl.
      rewrite lookup_insert_ne, Hf by exact Hne. reflexivity.
    + contradiction.
    + rewrite lookup_insert_ne, Hf by exact Hne. simpl.
      destruct (autoOpenImported (settings w)); simpl;
        rewrite <- ?app_assoc; reflexivity.
Qed.

(** X2. The file is created but cannot be opened: [saveNote] returns
    normally, the file is in the vault with the note's body, and what the
    user is told is [Failed to save note: <title>]. *)
Theorem saveNote_reports_failure_when_open_fails io note w msg :
  createFolder_fault io = None ->
  create_fault io = None ->
  openFile_fault io = Some msg ->
  autoOpenImported (settings w) = true ->
  vault w !! note_filename note = None ->
  fst (saveNote io note w) = Return tt /\
  file_content (vault (snd (saveNote io note w))) (note_filename note) =
    Some (markdown note) /\
  trace (snd (saveNote io note w)) =
    trace w ++ [EvConsoleError {| message := msg |};
                EvNotice ("Failed to save note: " +:+ title note)].
Proof.
  intros Hcf Hc Ho Hauto Hfree.
  split; [apply saveNote_returns; now right|].
  split.
  - rewrite (saveNote_creates io note w Hcf Hc Hfree).
    unfold file_content. now rewrite lookup_insert_eq.
  - pose proof (note_filename_not_inbox note) as Hne.
    run_saveNote. rewrite Hcf, Hc, Ho. simpl.
    destruct (vault w !! inboxFolder) as [e|] eqn:Hin; simpl.
    + rewrite Hfree. simpl. rewrite Hfree. simpl. rewrite Hauto. simpl.
      rewrite <- app_assoc. reflexivity.
    + rewrite Hin. simpl. rewrite !lookup_insert_ne, Hfree by exact Hne. simpl.
      rewrite lookup_insert_ne, Hfree by exact Hne. simpl. rewrite Hauto. simpl.
      rewrite <- app_assoc. reflexivity.
Qed.

(** X3. Two notes whose titles differ only in characters that are illegal
    in a file name share one file: saved one after the other (the host
    accepting the writes), the second overwrites the first. *)
Theorem saveNote_same_sanitized_title_overwrites io1 io2 first second w :
  sanitize (title first) = sanitize (title second) ->
  createFolder_fault io1 = None -> create_fault io1 = None -> modify_fault io1 = None ->
  createFolder_fault io2 = None -> modify_fault io2 = None ->
  vault w !! note_filename first <> Some FolderEntry ->
  let w1 := snd (saveNote io1 first w) in
  let w2 := snd (saveNote io2 second w1) in
  note_filename first = note_filename second /\
  file_content (vault w1) (note_filename first) = Some (markdown first) /\
  file_content (vault w2) (note_filename first) = Some (markdown second) /\
  forall q, q <> note_filename first ->
    file_content (vault w2) q = file_content (vault w) q.
Proof.
  intros Hsan Hcf1 Hc1 Hm1 Hcf2 Hm2 Hp w1 w2.
  assert (Hfn : note_filename first = note_filename second).
  { unfold note_filename. now rewrite Hsan. }
  assert (H1 : vault w1 =
    <[note_filename first := FileEntry (markdown first)]> (with_inbox (vault w))).
  { subst w1. now apply saveNote_writes. }
  assert (H2 : vault w2 =
    <[note_filename first := FileEntry (markdown second)]> (with_inbox (vault w1))).
  { subst w2. rewrite Hfn.
    apply saveNote_overwrites with (markdown first); auto.
    rewrite <- Hfn, H1. apply lookup_insert_eq. }
  split; [exact Hfn|]. split; [|split].
  - rewrite H1. unfold file_content. now rewrite lookup_insert_eq.
  - rewrite H2. unfold file_content. now rewrite lookup_insert_eq.
  - intros q Hq. rewrite H2. unfold file_content at 1.
    rewrite lookup_insert_ne by congruence.
    fold (file_content (with_inbox (vault w1)) q).
    rewrite with_inbox_files, H1. unfold file_content at 1.
    rewrite lookup_insert_ne by congruence.
    fold (file_content (with_inbox (vault w)) q). apply with_inbox_files.
Qed.

(** ** Sanitizing *)

(** X4. Sanitizing a sanitized title changes nothing, and a title is left
    as it is exactly when it has none of the illegal characters. *)
Theorem sanitize_idempotent_and_fixed t :
  sanitize (sanitize t) = sanitize t /\
  (sanitize t = t <-> forall c, illegal_in_filename c = true -> Js.occurs c t = false).
Proof.
  split; [|split].
  - unfold sanitize. induction t as [|a t IH]; simpl; [reflexivity|].
    rewrite IH. f_equal.
    destruct (illegal_in_filename a) eqn:Ha; [reflexivity | now rewrite Ha].
  - intros H c Hc. rewrite <- H. now apply sanitize_legal.
  - unfold sanitize. induction t as [|a t IH]; intros H; simpl; [reflexivity|].
    destruct (illegal_in_filename a) eqn:Ha.
    + specialize (H a Ha). simpl in H. now rewrite Ascii.eqb_refl in H.
    + f_equal. apply IH. intros c Hc. specialize (H c Hc). simpl in H.
      now apply orb_false_iff in H as [_ H].
Qed.

(** ** The loop and the poll, further *)

#[local] Instance emits_preorder P : PreOrder (emits P).
Proof.
  split.
  - intros w. exists []. split; [now rewrite app_nil_r | reflexivity].
  - intros a b c (e1 & H1 & P1) (e2 & H2 & P2). exists (e1 ++ e2). split.
    + now rewrite H2, H1, app_assoc.
    + rewrite forallb_app, P1, P2. reflexivity.
Qed.

Lemma emits_event (P : Event -> bool) e w : P e = true -> emits P w (with_event e w).
Proof. intros H. exists [e]. split; [reflexivity | simpl; now rewrite H]. Qed.

Lemma emits_same_trace (P : Event -> bool) w w' : trace w' = trace w -> emits P w w'.
Proof. intros H. exists []. split; [now rewrite app_nil_r | reflexivity]. Qed.

Lemma emits_weaken (P Q : Event -> bool) w w' :
  (forall e, P e = true -> Q e = true) -> emits P w w' -> emits Q w w'.
Proof.
  intros H (evs & Ht & HP). exists evs. split; [exact Ht|].
  rewrite forallb_forall in *. auto.
Qed.

Lemma emits_events (P : Event -> bool) evs w :
  forallb P evs = true -> emits P w (with_events evs w).
Proof. intros H. exists evs. split; [apply with_events_trace | exact H]. Qed.

Lemma saveNote_emits io note : keeps (emits from_saveNote) (saveNote io note).
Proof.
  unfold saveNote, createFolder, create, modify, openFile, getAbstractFileByPath,
    Notice, console_error, emit, when.
  repeat keeps_step;
    first [ apply emits_event; unfold from_saveNote;
            rewrite ?prefix_app, ?orb_true_r; reflexivity
          | apply emits_same_trace; reflexivity ].
Qed.

Section PollFacts.

Variable Date_getTime : string -> option Z.
Variable Date_toISOString : Z -> string.

Local Abbreviation process := (process_notes Date_getTime).
Local Abbreviation stage := (notes_stage Date_getTime).
Local Abbreviation attempt := (poll_attempt Date_getTime Date_toISOString).
Local Abbreviation poll1 := (poll Date_getTime Date_toISOString).
Local Abbreviation run := (polls Date_getTime Date_toISOString).
Local Abbreviation request_of := (download_request Date_toISOString).

(** A relation kept by [saveNote] and by the two steps of the loop around
    it is kept by the loop. *)
Lemma process_notes_keeps (R : World -> World -> Prop) `{!PreOrder R} :
  (forall io note, keeps R (saveNote io note)) ->
  (forall w s, R w (with_settings s w)) ->
  (forall w e, R w (with_event (EvConsoleError e) w)) ->
  (forall w note, R w (with_event (EvConsoleErrorNote note) w)) ->
  forall io ns index c l, keeps R (process io index ns c l).
Proof.
  intros Hsave Hset Hlog Hlog' io ns.
  induction ns as [|note rest IH]; intros index c l w.
  - reflexivity.
  - rewrite process_notes_cons.
    pose proof (Hsave (io index) note w) as Hs.
    destruct (saveNote (io index) note w) as [[[]|e] w1]; simpl in Hs.
    + etrans; [exact Hs|]. etrans; [|apply IH]. apply Hset.
    + etrans; [exact Hs|]. etrans; [|apply IH].
      etrans; [apply Hlog|]. apply Hlog'.
Qed.

Lemma notes_stage_keeps (R : World -> World -> Prop) `{!PreOrder R} :
  (forall io note, keeps R (saveNote io note)) ->
  (forall w s, R w (with_settings s w)) ->
  (forall w e, R w (with_event (EvConsoleError e) w)) ->
  (forall w note, R w (with_event (EvConsoleErrorNote note) w)) ->
  forall env data, keeps R (stage env data).
Proof.
  intros Hsave Hset Hlog Hlog' env data w. unfold notes_stage.
  destruct (notes data); [now apply process_notes_keeps | reflexivity].
Qed.

Lemma notes_stage_emits env data w :
  emits from_saveNote w (snd (stage env data w)).
Proof.
  apply notes_stage_keeps; try apply _.
  - apply saveNote_emits.
  - intros w0 s. now apply emits_same_trace.
  - intros w0 e. now apply emits_event.
  - intros w0 note. now apply emits_event.
Qed.

Lemma notes_stage_keeps_outside_inbox env data w :
  keeps_outside_inbox w (snd (stage env data w)).
Proof.
  apply notes_stage_keeps; try apply _.
  - intros io note w0. apply saveNote_keeps_outside_inbox.
  - intros w0 s p Hp. reflexivity.
  - intros w0 e p Hp. reflexivity.
  - intros w0 note p Hp. reflexivity.
Qed.

Lemma poll_returns env w : fst (poll1 env w) = Return tt.
Proof.
  destruct (hidden w) eqn:Hvis.
  - now rewrite poll_hidden.
  - rewrite (poll_visible _ _ env w Hvis).
    destruct (attempt env w) as [[r|e] w']; reflexivity.
Qed.

(** X5. A poll never throws: whatever the host answers, and whether the
    document is hidden or not, it returns normally. *)
Theorem poll_always_returns env w :
  fst (poll Date_getTime Date_toISOString env w) = Return tt.
Proof. apply poll_returns. Qed.

(** The world a poll in the foreground ends in, by what was fetched. *)
Lemma poll_world env w :
  hidden w = false ->
  (exists msg,
     (fetched env = Rejected msg \/ fetched env = Responded (NotJson msg)) /\
     snd (poll1 env w) =
     with_retryDelay (Z.min (retryDelay w * 2) (maxRetryDelay w))
       (with_events [request_of env w; EvConsoleError {| message := msg |};
                     EvConsoleError {| message := msg |}] w)) \/
  (exists data c l w2,
     fetched env = Responded (Json data) /\
     stage env data (with_settings (quota_applied data (settings w))
                       (with_event (request_of env w) w)) = (Return (c, l), w2) /\
     same_but_imports (with_settings (quota_applied data (settings w))
                         (with_event (request_of env w) w)) w2 /\
     (counts_exactly (importsThisMonth (settings w))
        (Z.of_nat (length (notes_of data))) = true ->
      importsThisMonth (settings w2) = importsThisMonth (settings w) + c) /\
     0 <= c <= Z.of_nat (length (notes_of data)) /\
     let w3 := with_settings (cursor_advanced c l (settings w2)) w2 in
     snd (poll1 env w) =
     match saveData_fault env with
     | Some msg =>
         with_retryDelay (Z.min (retryDelay w3 * 2) (maxRetryDelay w3))
           (with_events [EvConsoleError {| message := msg |};
                         EvConsoleError {| message := msg |}] w3)
     | None => with_retryDelay (2 * 60 * 1000) (with_events (published data w3) w3)
     end).
Proof.
  intros Hvis. rewrite (poll_visible _ _ env w Hvis).
  destruct (fetched env) as [msg|[msg|data]] eqn:Hf.
  - left. exists msg. split; [now left|].
    rewrite (poll_attempt_rejected _ _ env w msg Hf). reflexivity.
  - left. exists msg. split; [now right|].
    rewrite (poll_attempt_not_json _ _ env w msg Hf). reflexivity.
  - right.
    destruct (notes_stage_spec Date_getTime env data
      (with_settings (quota_applied data (settings w))
         (with_event (request_of env w) w)))
      as (c & l & w2 & Heq & Hsame & _ & Himp & Hc & _).
    destruct (quota_applied_fields data (settings w)) as (_ & Hqi & _).
    simpl in Himp. rewrite Hqi in Himp.
    exists data, c, l, w2. split; [reflexivity|]. split; [exact Heq|].
    split; [exact Hsame|]. split; [exact Himp|]. split; [exact Hc|].
    rewrite (poll_attempt_json _ _ env w data Hf c l w2 Heq).
    destruct (saveData_fault env); reflexivity.
Qed.


(** *** The requests of a poll *)

Lemma requests_app t1 t2 : requests (t1 ++ t2) = requests t1 ++ requests t2.
Proof. apply omap_app. Qed.

Lemma requests_after_request evs : forallb after_request evs = true -> requests evs = [].
Proof.
  induction evs as [|e evs IH]; simpl; [reflexivity|].
  intros H. apply andb_true_iff in H as [He H].
  destruct e; try discriminate He; now apply IH.
Qed.

Lemma from_saveNote_after_request e : from_saveNote e = true -> after_request e = true.
Proof. intros H. unfold after_request. now rewrite H. Qed.

Lemma published_after_request data w : forallb after_request (published data w) = true.
Proof. unfold published. destruct (over_quota data); reflexivity. Qed.

(** The trace of a poll in the foreground: the request, then events that
    are no requests. *)
Lemma poll_trace env w :
  hidden w = false ->
  exists evs,
    trace (snd (poll1 env w)) = trace w ++ request_of env w :: evs /\
    forallb after_request evs = true.
Proof.
  intros Hvis.
  destruct (poll_world env w Hvis)
    as [(msg & _ & ->) | (data & c & l & w2 & _ & Heq & _ & _ & _ & Hw)].
  - exists [EvConsoleError {| message := msg |}; EvConsoleError {| message := msg |}].
    split; [|reflexivity].
    unfold with_retryDelay. cbn [trace]. now rewrite with_events_trace.
  - pose proof (notes_stage_emits env data
      (with_settings (quota_applied data (settings w))
         (with_event (request_of env w) w))) as (evs & Ht & Hevs).
    rewrite Heq in Ht. simpl in Ht.
    assert (Hevs' : forallb after_request evs = true).
    { rewrite forallb_forall in *. intros e He.
      now apply from_saveNote_after_request, Hevs. }
    clear Hevs. rename Hevs' into Hevs.
    cbv zeta in Hw. rewrite Hw.
    destruct (saveData_fault env) as [msg|].
    + exists (evs ++ [EvConsoleError {| message := msg |};
                      EvConsoleError {| message := msg |}]).
      unfold with_retryDelay. cbn [trace]. rewrite with_events_trace.
      unfold with_settings. cbn [trace].
      rewrite Ht, <- !app_assoc. split; [reflexivity|].
      rewrite forallb_app, Hevs. reflexivity.
    + exists (evs ++ published data
                (with_settings (cursor_advanced c l (settings w2)) w2)).
      unfold with_retryDelay. cbn [trace]. rewrite with_events_trace.
      unfold with_settings at 1. cbn [trace].
      rewrite Ht, <- !app_assoc. split; [reflexivity|].
      rewrite forallb_app, Hevs. apply published_after_request.
Qed.

(** X6. A poll in the foreground sends exactly one request. It carries the
    vault identifier, the passkey and, as [since], the cursor, or the time
    24 hours before now while no cursor is set. *)
Theorem poll_sends_one_request env w :
  hidden w = false ->
  requests (trace (snd (poll Date_getTime Date_toISOString env w))) =
  requests (trace w) ++
  [DownloadRequest (vaultIdentifier (settings w)) (jwt (settings w))
     (if String.eqb (lastSyncIso (settings w)) ""
      then Date_toISOString (now env - 86400000)
      else lastSyncIso (settings w))].
Proof.
  intros Hvis. destruct (poll_trace env w Hvis) as (evs & -> & Hevs).
  rewrite requests_app. simpl. now rewrite (requests_after_request evs Hevs).
Qed.

Lemma poll_emits env w : emits from_poll w (snd (poll1 env w)).
Proof.
  destruct (hidden w) eqn:Hvis.
  - rewrite poll_hidden by exact Hvis. reflexivity.
  - destruct (poll_trace env w Hvis) as (evs & Ht & Hevs).
    exists (request_of env w :: evs). split; [exact Ht|].
    simpl. rewrite forallb_forall in *. intros e He.
    specialize (Hevs e He). destruct e; try exact Hevs; discriminate.
Qed.

Lemma forceSync_world env w :
  forceSync Date_getTime Date_toISOString env w =
  (Return tt,
   with_event (EvNotice "Sync completed!")
     (snd (poll1 env (with_event (EvNotice "Syncing with SendToVault...") w)))).
Proof.
  unfold forceSync, Notice, emit. unfold bind at 1. unfold update at 1.
  unfold try_catch. unfold bind at 1.
  pose proof (poll_returns env (with_event (EvNotice "Syncing with SendToVault...") w))
    as Hret.
  destruct (poll1 env (with_event (EvNotice "Syncing with SendToVault...") w))
    as [[[]|e] w']; simpl in Hret; [reflexivity | discriminate].
Qed.

(** X7. [forceSync] never throws and always ends by telling the user
    [Sync completed!], also when the poll it ran failed or was skipped: its
    notice of a failed sync is never shown. *)
Theorem forceSync_always_reports_completion env w :
  let syncing := EvNotice "Syncing with SendToVault..." in
  forceSync Date_getTime Date_toISOString env w =
    (Return tt,
     with_event (EvNotice "Sync completed!")
       (snd (poll Date_getTime Date_toISOString env (with_event syncing w)))) /\
  exists evs,
    trace (snd (poll Date_getTime Date_toISOString env (with_event syncing w))) =
      trace w ++ syncing :: evs /\
    trace (snd (forceSync Date_getTime Date_toISOString env w)) =
      trace w ++ syncing :: evs ++ [EvNotice "Sync completed!"] /\
    ~ In (EvNotice "Sync failed. Please try again.") evs.
Proof.
  intros syncing.
  pose proof (forceSync_world env w) as Heq. fold syncing in Heq.
  split; [exact Heq|].
  destruct (poll_emits env (with_event syncing w)) as (evs & Ht & Hevs).
  exists evs. simpl in Ht. rewrite <- app_assoc in Ht. split; [exact Ht|]. split.
  - rewrite Heq. simpl. rewrite Ht, <- app_assoc. reflexivity.
  - intros Hin. rewrite forallb_forall in Hevs. specialize (Hevs _ Hin).
    discriminate.
Qed.


(** *** The settings after a poll *)

Lemma account_same_but_imports s1 s2 :
  set_importsThisMonth 0 s2 = set_importsThisMonth 0 s1 -> account s2 = account s1.
Proof.
  intros H.
  change (account (set_importsThisMonth 0 s2) = account (set_importsThisMonth 0 s1)).
  now rewrite H.
Qed.

Lemma account_quota_applied data s : account (quota_applied data s) = account s.
Proof. unfold quota_applied. destruct (quota_used data), (quota_limit data); reflexivity. Qed.

Lemma account_cursor_advanced c l s : account (cursor_advanced c l s) = account s.
Proof.
  unfold cursor_advanced. destruct l as [l|]; [|reflexivity].
  destruct ((0 <? c) && negb (String.eqb l "")); reflexivity.
Qed.

(** A poll leaves the settings as they are, or got a response: then they
    are those of the loop's end, which differ from the ones the quota was
    written to in the count of imports only, with the cursor advanced. *)
Lemma poll_settings_cases env w :
  settings (snd (poll1 env w)) = settings w \/
  exists data c l s2,
    hidden w = false /\ fetched env = Responded (Json data) /\
    0 <= c <= Z.of_nat (length (notes_of data)) /\
    set_importsThisMonth 0 s2 = set_importsThisMonth 0 (quota_applied data (settings w)) /\
    (counts_exactly (importsThisMonth (settings w))
       (Z.of_nat (length (notes_of data))) = true ->
     importsThisMonth s2 = importsThisMonth (settings w) + c) /\
    settings (snd (poll1 env w)) = cursor_advanced c l s2.
Proof.
  destruct (hidden w) eqn:Hvis.
  { left. now rewrite poll_hidden. }
  destruct (poll_world env w Hvis)
    as [(msg & _ & ->) | (data & c & l & w2 & Hf & Heq & Hsame & Himp & Hc & _)].
  - left. unfold with_retryDelay. cbn [settings].
    now destruct (with_events_same_plugin
      [request_of env w; EvConsoleError {| message := msg |};
       EvConsoleError {| message := msg |}] w) as (-> & _).
  - right. exists data, c, l, (settings w2).
    destruct (poll_json_settings _ _ env w data c l w2 Hvis Hf Heq) as (Hs & _).
    destruct Hsame as (Hs2 & _).
    repeat split; try assumption; try lia.
Qed.

(** X8. No poll changes the credentials ([uid], [jwt], [alias]), the vault
    identifier or the auto-open setting: they are the same after any
    sequence of polls. *)
Theorem polls_keep_account envs : forall w,
  account (settings (polls Date_getTime Date_toISOString envs w)) = account (settings w).
Proof.
  induction envs as [|env rest IH]; intros w; simpl; [reflexivity|].
  rewrite IH.
  destruct (poll_settings_cases env w)
    as [-> | (data & c & l & s2 & _ & _ & _ & Hs2 & _ & ->)]; [reflexivity|].
  rewrite account_cursor_advanced, (account_same_but_imports _ _ Hs2).
  apply account_quota_applied.
Qed.

(** X9. While the increments of [importsThisMonth] are exact (it is at
    -2^53 or above, and at 2^53 or below with the number of notes of the
    response added), a poll never lowers it and raises it by at most that
    number of notes (by nothing when there is no response). *)
Theorem poll_imports_bounded env w :
  let before := importsThisMonth (settings w) in
  let after := importsThisMonth (settings (snd (poll Date_getTime Date_toISOString env w))) in
  counts_exactly before (notes_count env) = true ->
  before <= after <= before + notes_count env.
Proof.
  cbv zeta. unfold notes_count.
  destruct (poll_settings_cases env w)
    as [-> | (data & c & l & s2 & _ & Hf & Hc & _ & Himp & ->)].
  - intros _. destruct (fetched env) as [|[|]]; lia.
  - rewrite Hf. intros Hexact.
    destruct (cursor_advanced_fields c l s2) as (-> & _).
    rewrite (Himp Hexact). lia.
Qed.

(** X11. When a poll gets a response, each of [quotaUsed] and [quotaLimit]
    becomes the value the response gives for it and stays as it was when
    the response gives none, whatever notes the response holds and whether
    or not saving the settings then succeeds. *)
Theorem poll_quota_overwrite env w data :
  hidden w = false ->
  fetched env = Responded (Json data) ->
  let s' := settings (snd (poll Date_getTime Date_toISOString env w)) in
  quotaUsed s' = default (quotaUsed (settings w)) (quota_used data) /\
  quotaLimit s' = default (quotaLimit (settings w)) (quota_limit data).
Proof.
  intros Hvis Hf s'.
  destruct (poll_world env w Hvis)
    as [(msg & [H|H] & _) | (data' & c & l & w2 & Hf' & Heq & Hsame & _)];
    try congruence.
  rewrite Hf in Hf'. injection Hf' as <-.
  destruct (poll_json_settings _ _ env w data c l w2 Hvis Hf Heq) as (Hs & _).
  subst s'. rewrite Hs.
  destruct (cursor_advanced_fields c l (settings w2)) as (_ & -> & ->).
  destruct Hsame as (Hs2 & _). simpl in Hs2.
  destruct (quota_applied_fields data (settings w)) as (_ & _ & <- & <-).
  split.
  - change (quotaUsed (set_importsThisMonth 0 (settings w2)) =
            quotaUsed (set_importsThisMonth 0 (quota_applied data (settings w)))).
    now rewrite Hs2.
  - change (quotaLimit (set_importsThisMonth 0 (settings w2)) =
            quotaLimit (set_importsThisMonth 0 (quota_applied data (settings w)))).
    now rewrite Hs2.
Qed.

(** *** The vault after a poll *)

(** X10. A poll writes only in the Inbox: every path that is neither the
    Inbox folder nor below it holds after the poll what it held before, and
    no path of the vault is removed. *)
Theorem poll_writes_only_in_inbox env w :
  keeps_outside_inbox w (snd (poll Date_getTime Date_toISOString env w)) /\
  vault_grows w (snd (poll Date_getTime Date_toISOString env w)).
Proof.
  destruct (hidden w) eqn:Hvis.
  { rewrite poll_hidden by exact Hvis. split; reflexivity. }
  destruct (poll_world env w Hvis)
    as [(msg & _ & ->) | (data & c & l & w2 & Hf & Heq & _)].
  - unfold with_retryDelay, keeps_outside_inbox, vault_grows. cbn [vault].
    rewrite with_events_vault. split; auto.
  - destruct (poll_json_settings _ _ env w data c l w2 Hvis Hf Heq) as (_ & Hv).
    set (w1 := with_settings (quota_applied data (settings w))
                 (with_event (request_of env w) w)) in *.
    pose proof (notes_stage_keeps_outside_inbox env data w1) as Ho.
    destruct (notes_stage_spec Date_getTime env data w1)
      as (c' & l' & w2' & Heq' & _ & Hg & _).
    rewrite Heq in Heq'. injection Heq' as <- <- <-.
    rewrite Heq in Ho. simpl in Ho.
    unfold keeps_outside_inbox, vault_grows. rewrite Hv. split.
    + intros p Hp. apply (Ho p Hp).
    + intros p Hp. apply (Hg p Hp).
Qed.


(** *** The retry delay *)

(** The delay after a poll: as before (hidden), doubled up to the maximum
    (failed), or two minutes (succeeded). The maximum and the visibility do
    not change. *)
Lemma poll_delay_cases env w :
  maxRetryDelay (snd (poll1 env w)) = maxRetryDelay w /\
  hidden (snd (poll1 env w)) = hidden w /\
  (retryDelay (snd (poll1 env w)) = retryDelay w \/
   retryDelay (snd (poll1 env w)) = Z.min (retryDelay w * 2) (maxRetryDelay w) \/
   retryDelay (snd (poll1 env w)) = 2 * 60 * 1000).
Proof.
  destruct (hidden w) eqn:Hvis.
  { rewrite poll_hidden by exact Hvis. auto. }
  destruct (poll_world env w Hvis)
    as [(msg & _ & ->) | (data & c & l & w2 & _ & _ & Hsame & _ & _ & Hw)].
  - destruct (with_events_same_plugin
      [request_of env w; EvConsoleError {| message := msg |};
       EvConsoleError {| message := msg |}] w) as (_ & _ & _ & Hm & Hh & _).
    unfold with_retryDelay. cbn [maxRetryDelay hidden retryDelay].
    rewrite Hm, Hh. auto.
  - cbv zeta in Hw. rewrite Hw.
    destruct Hsame as (_ & _ & Hr & Hm & Hh & _). simpl in Hr, Hm, Hh.
    set (w3 := with_settings (cursor_advanced c l (settings w2)) w2).
    destruct (saveData_fault env) as [msg|].
    + destruct (with_events_same_plugin
        [EvConsoleError {| message := msg |}; EvConsoleError {| message := msg |}] w3)
        as (_ & _ & _ & Hm' & Hh' & _).
      unfold with_retryDelay. cbn [maxRetryDelay hidden retryDelay].
      rewrite Hm', Hh'. subst w3. simpl. rewrite Hr, Hm, Hh. auto.
    + destruct (with_events_same_plugin (published data w3) w3)
        as (_ & _ & _ & Hm' & Hh' & _).
      unfold with_retryDelay. cbn [maxRetryDelay hidden retryDelay].
      rewrite Hm', Hh'. subst w3. simpl. rewrite Hm, Hh. auto.
Qed.

Lemma polls_keep_hidden_and_maximum envs : forall w,
  maxRetryDelay (run envs w) = maxRetryDelay w /\ hidden (run envs w) = hidden w.
Proof.
  induction envs as [|env rest IH]; intros w; simpl; [auto|].
  destruct (IH (snd (poll1 env w))) as (-> & ->).
  destruct (poll_delay_cases env w) as (-> & -> & _). auto.
Qed.

(** X12. The retry delay stays in its range: if it lies between a lower
    bound of at most two minutes and a maximum of at least two minutes, it
    does so after any sequence of polls. For the plugin as constructed that
    range is 10 seconds to 30 minutes. *)
Theorem retry_delay_bounded lo envs : forall w,
  0 <= lo <= 2 * 60 * 1000 ->
  2 * 60 * 1000 <= maxRetryDelay w ->
  lo <= retryDelay w <= maxRetryDelay w ->
  lo <= retryDelay (polls Date_getTime Date_toISOString envs w) <= maxRetryDelay w.
Proof.
  induction envs as [|env rest IH]; intros w Hlo Hmax Hd; simpl; [exact Hd|].
  destruct (poll_delay_cases env w) as (Hm & _ & Hcases).
  rewrite <- Hm. apply IH; rewrite ?Hm; try assumption.
  destruct Hcases as [-> | [-> | ->]]; lia.
Qed.

(** A poll in the foreground whose fetch fails doubles the delay. *)
Lemma poll_fetch_fails_delay env w :
  hidden w = false -> fetch_fails env = true ->
  retryDelay (snd (poll1 env w)) = Z.min (retryDelay w * 2) (maxRetryDelay w).
Proof.
  intros Hvis Hfail.
  destruct (poll_world env w Hvis)
    as [(msg & _ & ->) | (data & c & l & w2 & Hf & _)].
  - reflexivity.
  - unfold fetch_fails in Hfail. rewrite Hf in Hfail. discriminate.
Qed.

(** X13. After n polls in a row, in the foreground, whose fetch fails, the
    retry delay is min(2^n x the delay before them, maxRetryDelay). *)
Theorem retry_delay_after_failures envs : forall w,
  hidden w = false ->
  forallb fetch_fails envs = true ->
  0 <= retryDelay w <= maxRetryDelay w ->
  retryDelay (polls Date_getTime Date_toISOString envs w) =
  Z.min (retryDelay w * 2 ^ Z.of_nat (length envs)) (maxRetryDelay w).
Proof.
  induction envs as [|env rest IH]; intros w Hvis Hfail Hd.
  - simpl. lia.
  - simpl in Hfail. apply andb_true_iff in Hfail as [Hf Hrest].
    destruct (poll_delay_cases env w) as (Hm & Hh & _).
    pose proof (poll_fetch_fails_delay env w Hvis Hf) as Hstep.
    cbn [polls]. rewrite IH; try assumption; try congruence; try lia.
    rewrite Hm, Hstep.
    change (length (env :: rest)) with (S (length rest)).
    rewrite Nat2Z.inj_succ, Z.pow_succ_r by lia.
    assert (Hpow : 1 <= 2 ^ Z.of_nat (length rest)).
    { pose proof (Z.pow_pos_nonneg 2 (Z.of_nat (length rest))). lia. }
    set (k := 2 ^ Z.of_nat (length rest)) in *.
    destruct (Z.le_gt_cases (retryDelay w * 2) (maxRetryDelay w)) as [Hle|Hgt].
    + rewrite (Z.min_l (retryDelay w * 2)) by exact Hle. f_equal. lia.
    + rewrite (Z.min_r (retryDelay w * 2)) by lia.
      rewrite !Z.min_r; [reflexivity | nia | nia].
Qed.

(** *** What a successful poll leaves behind *)

Lemma last_saved_from t : forall acc,
  fold_left (fun acc e => match e with EvSaveData s => Some s | _ => acc end) t acc =
  match last_saved t with
  | Some s => Some s
  | None => acc
  end.
Proof.
  unfold last_saved. induction t as [|e t IH]; intros acc; simpl; [reflexivity|].
  rewrite IH. rewrite (IH (match e with EvSaveData s => Some s | _ => None end)).
  destruct (fold_left
    (fun acc e => match e with EvSaveData s => Some s | _ => acc end) t None);
    destruct e; reflexivity.
Qed.

Lemma last_saved_app t1 t2 :
  last_saved (t1 ++ t2) =
  match last_saved t2 with
  | Some s => Some s
  | None => last_saved t1
  end.
Proof.
  unfold last_saved at 1. rewrite fold_left_app. apply last_saved_from.
Qed.

Lemma last_saved_published data w : last_saved (published data w) = Some (settings w).
Proof. unfold published. destruct (over_quota data); reflexivity. Qed.

(** X14. After a successful poll the data file holds exactly the settings
    the plugin has in memory: the poll ends by saving its final settings
    and by showing them on the badge and the quota panel (and the paywall,
    over quota). *)
Theorem successful_poll_saves_final_settings env w data :
  hidden w = false ->
  fetched env = Responded (Json data) ->
  saveData_fault env = None ->
  let w' := snd (poll Date_getTime Date_toISOString env w) in
  (exists earlier, trace w' = earlier ++ published data w') /\
  last_saved (trace w') = Some (settings w').
Proof.
  intros Hvis Hf Hsave.
  destruct (poll_world env w Hvis)
    as [(msg & [H|H] & _) | (data' & c & l & w2 & Hf' & _ & _ & _ & _ & Hw)];
    try congruence.
  rewrite Hf in Hf'. injection Hf' as <-.
  cbv zeta in Hw. rewrite Hsave in Hw.
  set (w3 := with_settings (cursor_advanced c l (settings w2)) w2) in *.
  set (w' := snd (poll1 env w)) in *. cbv zeta.
  assert (Hs : settings w' = settings w3).
  { rewrite Hw. unfold with_retryDelay. cbn [settings].
    now destruct (with_events_same_plugin (published data w3) w3) as (-> & _). }
  assert (Hp : published data w' = published data w3).
  { unfold published. now rewrite Hs. }
  assert (Ht : trace w' = trace w3 ++ published data w').
  { rewrite Hp, Hw. unfold with_retryDelay. cbn [trace].
    apply with_events_trace. }
  split; [now exists (trace w3)|].
  now rewrite Ht, last_saved_app, last_saved_published.
Qed.

(** *** A vault whose Inbox folder cannot be created *)

Lemma process_notes_without_inbox io ns : forall index c l w,
  vault w !! inboxFolder = None ->
  (forall i, is_Some (createFolder_fault (io i))) ->
  exists w',
    process io index ns c l w = (Return (c, l), w') /\
    vault w' = vault w /\ settings w' = settings w.
Proof.
  induction ns as [|note rest IH]; intros index c l w Hin Hfault.
  - exists w. auto.
  - rewrite process_notes_cons.
    destruct (Hfault index) as (msg & Hmsg).
    rewrite (saveNote_throws (io index) note w msg Hin Hmsg).
    destruct (IH (S index) c l
                (with_event (EvConsoleErrorNote note)
                   (with_event (EvConsoleError {| message := msg |}) w))
                Hin Hfault) as (w' & Heq & Hv & Hs).
    exists w'. auto.
Qed.

(** X15. With no Inbox folder in the vault and the host rejecting its
    creation, a poll that gets a response imports nothing: no note is
    counted, the vault, [importsThisMonth] and the cursor are as before, so
    the same notes are asked for again; yet the poll counts as successful
    and the retry delay is set to two minutes. *)
Theorem poll_without_inbox_imports_nothing env w data :
  hidden w = false ->
  fetched env = Responded (Json data) ->
  saveData_fault env = None ->
  vault w !! inboxFolder = None ->
  (forall i, is_Some (createFolder_fault (io env i))) ->
  let w' := snd (poll Date_getTime Date_toISOString env w) in
  fst (poll_attempt Date_getTime Date_toISOString env w) = Return (0, None) /\
  vault w' = vault w /\
  importsThisMonth (settings w') = importsThisMonth (settings w) /\
  lastSyncIso (settings w') = lastSyncIso (settings w) /\
  retryDelay w' = 2 * 60 * 1000.
Proof.
  intros Hvis Hf Hsave Hin Hfault w'.
  set (w1 := with_settings (quota_applied data (settings w))
               (with_event (request_of env w) w)).
  assert (Hloop : exists w2,
    stage env data w1 = (Return (0, None), w2) /\
    vault w2 = vault w /\ settings w2 = quota_applied data (settings w)).
  { unfold notes_stage. destruct (notes data) as [ns|].
    - destruct (process_notes_without_inbox (io env) ns 0%nat 0 None w1 Hin Hfault)
        as (w2 & Heq & Hv & Hs).
      exists w2. auto.
    - exists w1. auto. }
  destruct Hloop as (w2 & Heq & Hv & Hs).
  destruct (poll_json_settings _ _ env w data 0 None w2 Hvis Hf Heq) as (Hs' & Hv').
  destruct (quota_applied_fields data (settings w)) as (Hc & Hi & _).
  split; [|split; [|split; [|split]]].
  - rewrite (poll_attempt_json _ _ env w data Hf 0 None w2 Heq), Hsave. reflexivity.
  - subst w'. now rewrite Hv'.
  - subst w'. rewrite Hs'. simpl. now rewrite Hs.
  - subst w'. rewrite Hs'. simpl. now rewrite Hs.
  - subst w'. rewrite (poll_visible _ _ env w Hvis),
      (poll_attempt_json _ _ env w data Hf 0 None w2 Heq), Hsave. reflexivity.
Qed.


(** *** A poll whose settings cannot be saved *)

Lemma last_saved_from_saveNote evs :
  forallb from_saveNote evs = true -> last_saved evs = None.
Proof.
  induction evs as [|e evs IH]; [reflexivity|].
  simpl. intros H. apply andb_true_iff in H as [He H].
  change (e :: evs) with ([e] ++ evs). rewrite last_saved_app, (IH H).
  destruct e; try discriminate He; reflexivity.
Qed.

(** X27. A poll gets its response but the settings cannot be saved: the
    poll counts as failed and the retry delay is doubled up to the maximum;
    the data file holds what it held before, although the quota, the count
    of imports and the cursor have been written in memory; and neither the
    badge, the quota panel nor the paywall is updated. *)
Theorem poll_save_failure env w data msg :
  hidden w = false ->
  fetched env = Responded (Json data) ->
  saveData_fault env = Some msg ->
  let w' := snd (poll Date_getTime Date_toISOString env w) in
  retryDelay w' = Z.min (retryDelay w * 2) (maxRetryDelay w) /\
  last_saved (trace w') = last_saved (trace w) /\
  exists evs,
    trace w' = trace w ++ download_request Date_toISOString env w :: evs /\
    forallb from_saveNote evs = true.
Proof.
  intros Hvis Hf Hsave.
  destruct (poll_world env w Hvis)
    as [(m & [H|H] & _) | (data' & c & l & w2 & Hf' & Heq & Hsame & _ & _ & Hw)];
    try congruence.
  rewrite Hf in Hf'. injection Hf' as <-.
  cbv zeta in Hw. rewrite Hsave in Hw. cbv zeta. rewrite Hw.
  pose proof (notes_stage_emits env data
    (with_settings (quota_applied data (settings w))
       (with_event (request_of env w) w))) as (evs & Ht & Hevs).
  rewrite Heq in Ht. simpl in Ht.
  destruct Hsame as (_ & _ & Hr & Hm & _). simpl in Hr, Hm.
  assert (Htrace : trace (with_retryDelay
      (Z.min (retryDelay (with_settings (cursor_advanced c l (settings w2)) w2) * 2)
             (maxRetryDelay (with_settings (cursor_advanced c l (settings w2)) w2)))
      (with_events [EvConsoleError {| message := msg |};
                    EvConsoleError {| message := msg |}]
         (with_settings (cursor_advanced c l (settings w2)) w2))) =
    trace w ++ request_of env w ::
      (evs ++ [EvConsoleError {| message := msg |};
               EvConsoleError {| message := msg |}])).
  { unfold with_retryDelay. cbn [trace]. rewrite with_events_trace.
    unfold with_settings. cbn [trace]. rewrite Ht, <- !app_assoc. reflexivity. }
  split; [|split].
  - simpl. now rewrite Hr, Hm.
  - rewrite Htrace.
    change (request_of env w :: evs ++ [EvConsoleError {| message := msg |};
                                        EvConsoleError {| message := msg |}])
      with ([request_of env w] ++ (evs ++ [EvConsoleError {| message := msg |};
                                           EvConsoleError {| message := msg |}])).
    rewrite !last_saved_app, (last_saved_from_saveNote evs Hevs). reflexivity.
  - eexists. split; [exact Htrace|].
    rewrite forallb_app, Hevs. reflexivity.
Qed.

End PollFacts.

(** ** The interval *)

Lemma stopPolling_returns w : fst (stopPolling w) = Return tt.
Proof.
  unfold stopPolling. cbv [bind get clearInterval update ret].
  destruct (pollingInterval w) as [[|h]|]; reflexivity.
Qed.

Lemma stopPolling_same_plugin_state w :
  settings (snd (stopPolling w)) = settings w /\
  vault (snd (stopPolling w)) = vault w /\
  trace (snd (stopPolling w)) = trace w /\
  retryDelay (snd (stopPolling w)) = retryDelay w /\
  lastHandle (snd (stopPolling w)) = lastHandle w.
Proof.
  unfold stopPolling. cbv [bind get clearInterval update ret].
  destruct (pollingInterval w) as [[|h]|]; repeat split.
Qed.

Lemma stopPolling_one_timer w :
  one_timer w ->
  pollingInterval (snd (stopPolling w)) = None /\ intervals (snd (stopPolling w)) = ∅.
Proof.
  unfold stopPolling. cbv [bind get clearInterval update ret].
  intros [(Hp & Hi) | (h & d & Hp & Hi)]; rewrite Hp; simpl.
  - auto.
  - split; [reflexivity|]. rewrite Hi. apply delete_singleton_eq.
Qed.

(** X16. [stopPolling] clears the interval the plugin holds and no other
    one, touches nothing else, and does nothing when called again. *)
Theorem stopPolling_idempotent w :
  let w1 := snd (stopPolling w) in
  fst (stopPolling w) = Return tt /\
  snd (stopPolling w1) = w1 /\
  (forall h, pollingInterval w = Some (S h) ->
     pollingInterval w1 = None /\
     intervals w1 !! S h = None /\
     forall k, k <> S h -> intervals w1 !! k = intervals w !! k) /\
  settings w1 = settings w /\ vault w1 = vault w /\
  retryDelay w1 = retryDelay w /\ trace w1 = trace w.
Proof.
  cbv zeta. split; [apply stopPolling_returns|].
  unfold stopPolling. cbv [bind get clearInterval update ret].
  destruct (pollingInterval w) as [[|h]|] eqn:Hp; simpl; rewrite ?Hp; simpl.
  - split; [reflexivity|]. split; [intros h0 Hh; discriminate|]. repeat split.
  - split; [reflexivity|]. split; [|repeat split].
    intros h' Hh'. injection Hh' as <-.
    split; [reflexivity|]. split; [apply lookup_delete_eq|].
    intros k Hk. now apply lookup_delete_ne.
  - split; [reflexivity|]. split; [intros h0 Hh; discriminate|]. repeat split.
Qed.

Section TimerFacts.

Variable Date_getTime : string -> option Z.
Variable Date_toISOString : Z -> string.

Local Abbreviation poll1 := (poll Date_getTime Date_toISOString).
Local Abbreviation start := (startPolling Date_getTime Date_toISOString).

(** [startPolling]: stop, set the interval, poll. *)
Lemma startPolling_world env w :
  start env w = poll1 env (armed (snd (stopPolling w))).
Proof.
  unfold startPolling. unfold bind at 1.
  pose proof (stopPolling_returns w) as Hret.
  destruct (stopPolling w) as [[[]|e] ws]; simpl in Hret; [|discriminate].
  reflexivity.
Qed.

Lemma one_timer_kept w w' :
  pollingInterval w' = pollingInterval w -> intervals w' = intervals w ->
  one_timer w -> one_timer w'.
Proof. unfold one_timer. intros -> ->. auto. Qed.

Lemma poll_one_timer env w : one_timer w -> one_timer (snd (poll1 env w)).
Proof.
  destruct (poll_keeps_timer Date_getTime Date_toISOString env w) as (Hp & Hi & _).
  now apply one_timer_kept.
Qed.

Lemma startPolling_timer env w :
  one_timer w ->
  pollingInterval (snd (start env w)) = Some (S (lastHandle w)) /\
  intervals (snd (start env w)) = {[ S (lastHandle w) := retryDelay w ]}.
Proof.
  intros H. rewrite startPolling_world.
  destruct (poll_keeps_timer Date_getTime Date_toISOString env
              (armed (snd (stopPolling w)))) as (-> & -> & _).
  destruct (stopPolling_one_timer w H) as (_ & Hi).
  destruct (stopPolling_same_plugin_state w) as (_ & _ & _ & Hr & Hl).
  unfold armed. simpl. rewrite Hi, Hr, Hl. split; reflexivity.
Qed.

(** X17. [startPolling] leaves the plugin with exactly one interval, a
    fresh one in place of the one it held, and its period is the retry
    delay at the time of the call, whatever the immediate poll then makes
    of that delay. *)
Theorem startPolling_arms_one_timer env w :
  one_timer w ->
  let w' := snd (startPolling Date_getTime Date_toISOString env w) in
  fst (startPolling Date_getTime Date_toISOString env w) = Return tt /\
  pollingInterval w' = Some (S (lastHandle w)) /\
  intervals w' = {[ S (lastHandle w) := retryDelay w ]} /\
  scheduled_delay w' = Some (retryDelay w).
Proof.
  intros H. cbv zeta.
  destruct (startPolling_timer env w H) as (Hp & Hi).
  split; [rewrite startPolling_world; apply poll_returns|].
  split; [exact Hp|]. split; [exact Hi|].
  unfold scheduled_delay. rewrite Hp, Hi. simpl. apply lookup_singleton_eq.
Qed.

Lemma act_one_timer a w :
  one_timer w -> one_timer (snd (act Date_getTime Date_toISOString a w)).
Proof.
  intros H. destruct a as [env| |env|env|env]; simpl.
  - destruct (startPolling_timer env w H) as (Hp & Hi).
    right. eauto.
  - left. now apply stopPolling_one_timer.
  - now apply poll_one_timer.
  - unfold visibilityChangeHandler. unfold bind at 1, get at 1.
    destruct (hidden w); [exact H | now apply poll_one_timer].
  - rewrite forceSync_world. simpl.
    set (w0 := with_event (EvNotice "Syncing with SendToVault...") w).
    apply (one_timer_kept (snd (poll1 env w0))); try reflexivity.
    apply poll_one_timer. now apply (one_timer_kept w).
Qed.

(** X18. However the host drives the plugin (starting and stopping the
    polling, interval ticks, visibility changes, forced syncs), the plugin
    never holds more than one interval: none, or the one whose handle is in
    [pollingInterval]. *)
Theorem session_one_timer acts : forall w,
  one_timer w ->
  one_timer (session Date_getTime Date_toISOString acts w) /\
  (size (intervals (session Date_getTime Date_toISOString acts w)) <= 1)%nat.
Proof.
  assert (Hsize : forall w, one_timer w -> (size (intervals w) <= 1)%nat).
  { intros w [(_ & ->) | (h & d & _ & ->)].
    - rewrite map_size_empty. lia.
    - rewrite map_size_singleton. lia. }
  induction acts as [|a rest IH]; intros w H; simpl.
  - split; [exact H | now apply Hsize].
  - apply IH. now apply act_one_timer.
Qed.

End TimerFacts.

(** ** Registration, further *)

#[local] Instance same_but_credentials_preorder : PreOrder same_but_credentials.
Proof.
  split.
  - intros w. repeat split.
  - intros a b c. unfold same_but_credentials. intuition congruence.
Qed.

Section RegistrationFacts.

Variable manifest_version : string.
Variable JSON_stringify : RegistrationResponse -> string.

Local Abbreviation attempt := (register_attempt manifest_version JSON_stringify).
Local Abbreviation register := (registerWithService manifest_version JSON_stringify).
Local Abbreviation request := (register_request manifest_version).
Local Abbreviation invalid := (invalid_response JSON_stringify).

(** The handler of [registerWithService], on the world the [try] block
    left. *)
Lemma register_handled env rotate w e w1 :
  attempt env rotate w = (Throw e, w1) ->
  register env rotate w =
  (Return tt,
   with_events [EvConsoleError e; EvNotice (errorMessage e); EvConsoleError e] w1).
Proof.
  intros H. unfold registerWithService, try_catch.
  fold (attempt env rotate w). rewrite H. reflexivity.
Qed.

Lemma register_attempt_valid env rotate w data email key vid :
  answer env = Responded (Json data) ->
  present (email_address data) = Some email ->
  present (passkey data) = Some key ->
  present (vault_id data) = Some vid ->
  let w1 := with_settings (set_credentials vid key email (settings w))
              (with_event (request rotate w) w) in
  attempt env rotate w =
  match register_saveData_fault env with
  | Some msg => (Throw {| message := msg |}, w1)
  | None =>
      (Return tt,
       with_events
         [EvSaveData (settings w1);
          if rotate then EvNotice "Email alias rotated successfully!"
          else EvModal (FirstRunModal data)] w1)
  end.
Proof.
  intros Ha He Hk Hv. unfold register_attempt, register_request.
  cbv [bind get requestUrl settle emit update json ret update_settings saveSettings
       rejected_by_host throw Notice].
  rewrite Ha, He, Hk, Hv. simpl.
  destruct (register_saveData_fault env); [reflexivity|].
  destruct rotate; reflexivity.
Qed.

(** X19. A registration whose response has the three fields, and whose
    settings are then saved: [uid], [jwt] and [alias] become [vault_id],
    [passkey] and [email_address]; the new settings are saved; the user
    gets the first-run modal, or after a rotation the notice of it; and no
    polling is started by the registration itself. *)
Theorem register_success env rotate w data email key vid :
  answer env = Responded (Json data) ->
  present (email_address data) = Some email ->
  present (passkey data) = Some key ->
  present (vault_id data) = Some vid ->
  register_saveData_fault env = None ->
  let w' := snd (registerWithService manifest_version JSON_stringify env rotate w) in
  let s' := set_credentials vid key email (settings w) in
  fst (registerWithService manifest_version JSON_stringify env rotate w) = Return tt /\
  settings w' = s' /\
  trace w' =
    trace w ++
    [register_request manifest_version rotate w; EvSaveData s';
     if rotate then EvNotice "Email alias rotated successfully!"
     else EvModal (FirstRunModal data)] /\
  last_saved (trace w') = Some s' /\
  pollingInterval w' = pollingInterval w /\
  intervals w' = intervals w.
Proof.
  intros Ha He Hk Hv Hsave. cbv zeta.
  unfold registerWithService, try_catch.
  fold (attempt env rotate w).
  rewrite (register_attempt_valid env rotate w data email key vid Ha He Hk Hv), Hsave.
  simpl. repeat split.
  - rewrite <- !app_assoc. reflexivity.
  - rewrite <- !app_assoc. rewrite last_saved_app. destruct rotate; reflexivity.
Qed.

(** X22. The response is valid but saving the settings fails: the new
    credentials are in the plugin's settings all the same, while the data
    file still holds the old ones; the user is told that the registration
    failed, and gets no first-run modal. *)
Theorem register_save_failure env rotate w data email key vid msg :
  answer env = Responded (Json data) ->
  present (email_address data) = Some email ->
  present (passkey data) = Some key ->
  present (vault_id data) = Some vid ->
  register_saveData_fault env = Some msg ->
  let w' := snd (registerWithService manifest_version JSON_stringify env rotate w) in
  let error := {| message := msg |} in
  fst (registerWithService manifest_version JSON_stringify env rotate w) = Return tt /\
  settings w' = set_credentials vid key email (settings w) /\
  trace w' =
    trace w ++
    [register_request manifest_version rotate w; EvConsoleError error;
     EvNotice (errorMessage error); EvConsoleError error] /\
  last_saved (trace w') = last_saved (trace w).
Proof.
  intros Ha He Hk Hv Hsave. cbv zeta.
  pose proof (register_attempt_valid env rotate w data email key vid Ha He Hk Hv) as H.
  cbv zeta in H. rewrite Hsave in H.
  rewrite (register_handled env rotate w _ _ H). simpl. repeat split.
  - rewrite <- !app_assoc. reflexivity.
  - rewrite <- !app_assoc. rewrite last_saved_app. reflexivity.
Qed.

(** X24. The registration request is rejected, or its response cannot be
    read: nothing changes but the trace, which gets the request, the error
    in the console and one notice made from the error's message. *)
Theorem register_fetch_failure env rotate w msg :
  answer env = Rejected msg \/ answer env = Responded (NotJson msg) ->
  let error := {| message := msg |} in
  registerWithService manifest_version JSON_stringify env rotate w =
  (Return tt,
   with_events [register_request manifest_version rotate w; EvConsoleError error;
                EvNotice (errorMessage error); EvConsoleError error] w).
Proof.
  intros Ha. cbv zeta.
  assert (H : attempt env rotate w =
    (Throw {| message := msg |}, with_event (request rotate w) w)).
  { unfold register_attempt, register_request.
    cbv [bind get requestUrl settle emit update json ret throw].
    destruct Ha as [-> | ->]; reflexivity. }
  rewrite (register_handled env rotate w _ _ H). reflexivity.
Qed.

(** X21. [registerWithService] never throws: every failure ends in its
    handler, which returns. *)
Theorem register_never_throws env rotate w :
  fst (registerWithService manifest_version JSON_stringify env rotate w) = Return tt.
Proof.
  unfold registerWithService.
  match goal with |- fst (try_catch ?m ?h w) = _ =>
    destruct (try_catch_returns m h w) as [[] Ha]; [|exact Ha] end.
  intros e w'. exists tt. reflexivity.
Qed.

(** X20. Registration, successful or not, first-time or rotation, changes
    nothing but the credentials and the trace: the cursor, the quota, the
    count of imports, the vault identifier, the vault, the retry delay and
    the interval are as before. *)
Theorem register_changes_credentials_only env rotate :
  keeps same_but_credentials
        (registerWithService manifest_version JSON_stringify env rotate).
Proof.
  unfold registerWithService, register_attempt, requestUrl, settle, json, saveSettings,
    update_settings, Notice, console_error, emit.
  repeat keeps_step; repeat split.
Qed.

(** X23. What the user is told about an invalid response depends on the
    text of that response: the notice says that the server returned invalid
    data, unless the response contains the word fetch, in which case it
    reports a failed network connection. *)
Theorem invalid_response_notice_by_text data :
  errorMessage (invalid_response JSON_stringify data) =
  if Js.includes "fetch" (JSON_stringify data)
  then "Failed to register with SendToVault. Network connection failed. Check your internet connection."
  else "Failed to register with SendToVault. Server returned invalid data.".
Proof.
  unfold errorMessage, invalid_response. simpl message.
  assert (Hf : Js.includes "fetch" ("Invalid response data: " +:+ JSON_stringify data) =
               Js.includes "fetch" (JSON_stringify data)).
  { reflexivity. }
  rewrite Hf. destruct (Js.includes "fetch" (JSON_stringify data)); [reflexivity|].
  assert (Hi : Js.includes "Invalid response"
                 ("Invalid response data: " +:+ JSON_stringify data) = true).
  { simpl. reflexivity. }
  rewrite Hi. reflexivity.
Qed.

End RegistrationFacts.

(** ** Loading the settings *)

Lemma generated_identifier_not_empty env : generateVaultIdentifier env <> "".
Proof.
  unfold generateVaultIdentifier. destruct (vaultName env); discriminate.
Qed.

Lemma assign_stored s : assign DEFAULT_SETTINGS (stored s) = s.
Proof. destruct s; reflexivity. Qed.

(** X25. What [saveSettings] writes, [loadSettings] reads back: loading the
    data saved from settings that have a vault identifier makes exactly
    those the plugin's settings, and saves nothing. *)
Theorem loadSettings_round_trip env w s :
  loadData_fault env = None ->
  stored_data env = stored s ->
  vaultIdentifier s <> "" ->
  last_saved (trace (snd (saveSettings None (with_settings s w)))) = Some s /\
  loadSettings env w = (Return tt, with_settings s w).
Proof.
  intros Hl Hd Hv. split.
  - cbv [saveSettings rejected_by_host bind ret get emit update]. simpl.
    rewrite last_saved_app. reflexivity.
  - unfold loadSettings. cbv [rejected_by_host bind ret get update when].
    rewrite Hl, Hd, assign_stored. simpl.
    apply String.eqb_neq in Hv. rewrite Hv. reflexivity.
Qed.

(** X26. After [loadSettings] has returned the vault identifier is never
    empty. A stored identifier is kept as it is and nothing is saved; when
    none is stored, the identifier is made of the vault's name and a fresh
    UUID and is saved at once with the settings, whose other fields are the
    stored ones, or the defaults for those the data file lacks. *)
Theorem loadSettings_identifier env w :
  loadData_fault env = None ->
  load_saveData_fault env = None ->
  let loaded := assign DEFAULT_SETTINGS (stored_data env) in
  let w' := snd (loadSettings env w) in
  fst (loadSettings env w) = Return tt /\
  vaultIdentifier (settings w') <> "" /\
  (vaultIdentifier loaded <> "" ->
   settings w' = loaded /\ trace w' = trace w) /\
  (vaultIdentifier loaded = "" ->
   settings w' = set_vaultIdentifier (vaultName env +:+ "-" +:+ randomUUID env) loaded /\
   trace w' = trace w ++ [EvSaveData (settings w')]).
Proof.
  intros Hl Hs. cbv zeta.
  unfold loadSettings.
  cbv [rejected_by_host bind ret get update when update_settings saveSettings emit].
  rewrite Hl, Hs. simpl.
  destruct (String.eqb (default "" (stored_vaultIdentifier (stored_data env))) "")
    eqn:He; simpl.
  - apply String.eqb_eq in He.
    split; [reflexivity|]. split; [apply generated_identifier_not_empty|].
    split; [intros H; contradiction|]. intros _. split; reflexivity.
  - apply String.eqb_neq in He.
    split; [reflexivity|]. split; [exact He|].
    split; [intros _; split; reflexivity | intros H; contradiction].
Qed.

(** ** Further concrete runs *)

Section FurtherExamples.

Import Scenario Further.

Local Abbreviation poll := (poll IsoDate.getTime IsoDate.toISOString).
Local Abbreviation polls := (polls IsoDate.getTime IsoDate.toISOString).
Local Abbreviation poll_attempt := (poll_attempt IsoDate.getTime IsoDate.toISOString).
Local Abbreviation startPolling := (startPolling IsoDate.getTime IsoDate.toISOString).
Local Abbreviation session := (session IsoDate.getTime IsoDate.toISOString).
Local Abbreviation registerWithService := (registerWithService "1.0.0" JsonText.stringify).

Lemma saveNote_opens_witness :
  let w := plugin "" inbox_only in
  vault w !! note_filename report <> Some FolderEntry /\
  trace (snd (saveNote no_fault report w)) =
    [EvOpenFile "Inbox/Report_ Q1_Q2.md"; EvNotice "Imported: Report: Q1/Q2"] /\
  trace (snd (saveNote no_fault report (snd (saveNote no_fault report w)))) =
    [EvOpenFile "Inbox/Report_ Q1_Q2.md"; EvNotice "Imported: Report: Q1/Q2";
     EvNotice "Imported: Report: Q1/Q2"].
Proof.
  assert (H : vault (plugin "" inbox_only) !! note_filename report <> Some FolderEntry).
  { vm_compute. discriminate. }
  split; [exact H|]. split.
  - exact (saveNote_opens_only_new_files report (plugin "" inbox_only) H).
  - assert (H' : vault (snd (saveNote no_fault report (plugin "" inbox_only)))
                   !! note_filename report <> Some FolderEntry).
    { vm_compute. discriminate. }
    exact (saveNote_opens_only_new_files report _ H').
Defined.

Lemma saveNote_open_fails_witness :
  let w := plugin "" inbox_only in
  let w' := snd (saveNote cannot_open report w) in
  autoOpenImported (settings w) = true /\
  vault w !! note_filename report = None /\
  file_content (vault w') "Inbox/Report_ Q1_Q2.md" = Some "# Report" /\
  trace w' = [EvConsoleError {| message := "No leaf to open the file in" |};
              EvNotice "Failed to save note: Report: Q1/Q2"].
Proof.
  split; [reflexivity|]. split; [reflexivity|].
  destruct (saveNote_reports_failure_when_open_fails cannot_open report
              (plugin "" inbox_only) "No leaf to open the file in"
              eq_refl eq_refl eq_refl eq_refl eq_refl) as (_ & Hf & Ht).
  cbv zeta. split; [exact Hf | exact Ht].
Defined.

Lemma saveNote_same_title_witness :
  let w := plugin "" inbox_only in
  let w2 := snd (saveNote no_fault report_again (snd (saveNote no_fault report w))) in
  title report <> title report_again /\
  sanitize (title report) = sanitize (title report_again) /\
  file_content (vault w2) "Inbox/Report_ Q1_Q2.md" = Some "# Report, revised".
Proof.
  split; [discriminate|]. split; [reflexivity|].
  assert (Hp : vault (plugin "" inbox_only) !! note_filename report <> Some FolderEntry).
  { vm_compute. discriminate. }
  destruct (saveNote_same_sanitized_title_overwrites no_fault no_fault report report_again
              (plugin "" inbox_only) eq_refl eq_refl eq_refl eq_refl eq_refl eq_refl Hp)
    as (_ & _ & H2 & _).
  exact H2.
Defined.

Lemma poll_request_witness :
  let w := plugin "" inbox_only in
  hidden w = false /\
  requests (trace (snd (poll (answer_with [report]) w))) =
    [DownloadRequest "Notes-0b6f" "pk-1" "2024-03-01T12:00:00.000Z"].
Proof.
  split; [reflexivity|].
  exact (poll_sends_one_request IsoDate.getTime IsoDate.toISOString
           (answer_with [report]) (plugin "" inbox_only) eq_refl).
Defined.

Lemma poll_imports_bounded_witness :
  let w := plugin "" inbox_only in
  let env := read_only [report; minutes] in
  let w' := snd (poll env w) in
  counts_exactly (importsThisMonth (settings w)) (notes_count env) = true /\
  importsThisMonth (settings w) <= importsThisMonth (settings w')
    <= importsThisMonth (settings w) + notes_count env.
Proof.
  split; [reflexivity|].
  exact (poll_imports_bounded IsoDate.getTime IsoDate.toISOString
           (read_only [report; minutes]) (plugin "" inbox_only) eq_refl).
Defined.

Lemma poll_quota_witness :
  let w := plugin "" inbox_only in
  let s' := settings (snd (poll over_quota_answer w)) in
  hidden w = false /\ quotaUsed s' = 100 /\ quotaLimit s' = 100.
Proof.
  split; [reflexivity|].
  exact (poll_quota_overwrite IsoDate.getTime IsoDate.toISOString over_quota_answer
           (plugin "" inbox_only) over_quota_response eq_refl eq_refl).
Defined.

Lemma retry_delay_bounded_witness :
  let w := plugin "" inbox_only in
  let envs := [offline; answer_with [report]; offline; offline] in
  10000 <= retryDelay w <= maxRetryDelay w /\
  10000 <= retryDelay (polls envs w) <= 1800000.
Proof.
  assert (H : 10000 <= retryDelay (plugin "" inbox_only)
                    <= maxRetryDelay (plugin "" inbox_only)).
  { vm_compute. split; discriminate. }
  split; [exact H|].
  apply (retry_delay_bounded IsoDate.getTime IsoDate.toISOString 10000
           [offline; answer_with [report]; offline; offline] (plugin "" inbox_only)).
  - lia.
  - vm_compute. discriminate.
  - exact H.
Defined.

Lemma retry_delay_after_failures_witness :
  let w := plugin "" inbox_only in
  hidden w = false /\
  retryDelay (polls [offline; offline; offline] w) = 80000 /\
  retryDelay (polls [offline; offline; offline; offline; offline;
                     offline; offline; offline] w) = 1800000.
Proof.
  assert (H : 0 <= retryDelay (plugin "" inbox_only)
                <= maxRetryDelay (plugin "" inbox_only)).
  { vm_compute. split; discriminate. }
  split; [reflexivity|]. split.
  - exact (retry_delay_after_failures IsoDate.getTime IsoDate.toISOString
             [offline; offline; offline] (plugin "" inbox_only) eq_refl eq_refl H).
  - exact (retry_delay_after_failures IsoDate.getTime IsoDate.toISOString
             [offline; offline; offline; offline; offline; offline; offline; offline]
             (plugin "" inbox_only) eq_refl eq_refl H).
Defined.

Lemma successful_poll_saves_witness :
  let w := plugin "" inbox_only in
  let w' := snd (poll (answer_with [report; minutes]) w) in
  hidden w = false /\
  last_saved (trace w') = Some (settings w') /\
  importsThisMonth (settings w') = 2.
Proof.
  split; [reflexivity|].
  destruct (successful_poll_saves_final_settings IsoDate.getTime IsoDate.toISOString
              (answer_with [report; minutes]) (plugin "" inbox_only)
              (response [report; minutes]) eq_refl eq_refl eq_refl) as (_ & H).
  split; [exact H | reflexivity].
Defined.

Lemma poll_without_inbox_witness :
  let w := plugin "2024-03-01T00:00:00.000Z" ∅ in
  let w' := snd (poll (read_only [report; minutes]) w) in
  hidden w = false /\
  vault w !! inboxFolder = None /\
  vault w' = vault w /\
  importsThisMonth (settings w') = importsThisMonth (settings w) /\
  lastSyncIso (settings w') = "2024-03-01T00:00:00.000Z" /\
  retryDelay w' = 120000.
Proof.
  assert (Hin : vault (plugin "2024-03-01T00:00:00.000Z" ∅) !! inboxFolder = None).
  { reflexivity. }
  split; [reflexivity|]. split; [exact Hin|].
  destruct (poll_without_inbox_imports_nothing IsoDate.getTime IsoDate.toISOString
              (read_only [report; minutes]) (plugin "2024-03-01T00:00:00.000Z" ∅)
              (response [report; minutes]) eq_refl eq_refl eq_refl Hin
              (fun _ => ex_intro _ "EACCES: permission denied" eq_refl))
    as (_ & Hv & Hi & Hc & Hr).
  cbv zeta. repeat split; assumption.
Defined.

Lemma startPolling_witness :
  let w := plugin "" inbox_only in
  let w1 := snd (startPolling offline w) in
  let w2 := snd (startPolling offline w1) in
  one_timer w /\
  (retryDelay w1 = 20000 /\ scheduled_delay w1 = Some 10000) /\
  (intervals w2 = {[ 2%nat := 20000 ]} /\ scheduled_delay w2 = Some 20000).
Proof.
  assert (H : one_timer (plugin "" inbox_only)).
  { left. split; reflexivity. }
  split; [exact H|].
  destruct (startPolling_arms_one_timer IsoDate.getTime IsoDate.toISOString offline
              (plugin "" inbox_only) H) as (_ & _ & _ & Hd).
  split; [split; [reflexivity | exact Hd]|].
  split; reflexivity.
Defined.

Lemma session_one_timer_witness :
  let w := plugin "" inbox_only in
  let acts := [Start offline; Tick offline; ForceSync (answer_with [report]);
               Start (answer_with []); BecameVisible offline; Stop;
               Start offline] in
  one_timer w /\ (size (intervals (session acts w)) <= 1)%nat.
Proof.
  assert (H : one_timer (plugin "" inbox_only)).
  { left. split; reflexivity. }
  split; [exact H|].
  apply (session_one_timer IsoDate.getTime IsoDate.toISOString _ _ H).
Defined.

Lemma register_success_witness :
  let w := initial_plugin DEFAULT_SETTINGS ∅ in
  let w' := snd (registerWithService (register_answer full_response) false w) in
  present (passkey full_response) = Some "pk-1" /\
  uid (settings w') = "v-1" /\ jwt (settings w') = "pk-1" /\
  alias (settings w') = "notes@in.sendtovault.com" /\
  scheduled_delay w' = None.
Proof.
  split; [reflexivity|].
  destruct (register_success "1.0.0" JsonText.stringify (register_answer full_response)
              false (initial_plugin DEFAULT_SETTINGS ∅) full_response
              "notes@in.sendtovault.com" "pk-1" "v-1"
              eq_refl eq_refl eq_refl eq_refl eq_refl) as (_ & Hs & _).
  cbv zeta. rewrite Hs. repeat split.
Defined.

Lemma register_save_failure_witness :
  let w := initial_plugin DEFAULT_SETTINGS ∅ in
  let w' := snd (registerWithService (register_unsaved full_response) false w) in
  register_saveData_fault (register_unsaved full_response) =
    Some "EACCES: permission denied" /\
  jwt (settings w') = "pk-1" /\
  last_saved (trace w') = None.
Proof.
  split; [reflexivity|].
  destruct (register_save_failure "1.0.0" JsonText.stringify
              (register_unsaved full_response) false (initial_plugin DEFAULT_SETTINGS ∅)
              full_response "notes@in.sendtovault.com" "pk-1" "v-1"
              "EACCES: permission denied"
              eq_refl eq_refl eq_refl eq_refl eq_refl) as (_ & Hs & _ & Hl).
  cbv zeta. rewrite Hs. split; [reflexivity | exact Hl].
Defined.

Lemma register_fetch_failure_witness :
  let w := initial_plugin DEFAULT_SETTINGS ∅ in
  let w' := snd (registerWithService register_offline false w) in
  answer register_offline = Rejected "net::ERR_INTERNET_DISCONNECTED" /\
  settings w' = settings w /\
  In (EvNotice "Failed to register with SendToVault. Error: net::ERR_INTERNET_DISCONNECTED")
     (trace w').
Proof.
  split; [reflexivity|].
  pose proof (register_fetch_failure "1.0.0" JsonText.stringify register_offline false
                (initial_plugin DEFAULT_SETTINGS ∅) "net::ERR_INTERNET_DISCONNECTED"
                (or_introl eq_refl)) as H.
  cbv zeta in *. rewrite H. split; [reflexivity|].
  right. right. left. reflexivity.
Defined.

Lemma loadSettings_round_trip_witness :
  let s := registered "2024-03-01T12:00:00.000Z" in
  let w := initial_plugin DEFAULT_SETTINGS ∅ in
  vaultIdentifier s <> "" /\
  settings (snd (loadSettings (load_stored s) w)) = s /\
  trace (snd (loadSettings (load_stored s) w)) = [].
Proof.
  assert (Hv : vaultIdentifier (registered "2024-03-01T12:00:00.000Z") <> "").
  { discriminate. }
  split; [exact Hv|].
  destruct (loadSettings_round_trip (load_stored (registered "2024-03-01T12:00:00.000Z"))
              (initial_plugin DEFAULT_SETTINGS ∅) (registered "2024-03-01T12:00:00.000Z")
              eq_refl eq_refl Hv) as (_ & H).
  cbv zeta. rewrite H. split; reflexivity.
Defined.

Lemma loadSettings_identifier_witness :
  let w := initial_plugin DEFAULT_SETTINGS ∅ in
  let w' := snd (loadSettings first_load w) in
  loadData_fault first_load = None /\
  vaultIdentifier (settings w') = "Notes-0b6f8a52-3c1d-4e7f-9a10-5d2c7e8b9f00" /\
  quotaLimit (settings w') = 100 /\
  last_saved (trace w') = Some (settings w').
Proof.
  split; [reflexivity|].
  destruct (loadSettings_identifier first_load (initial_plugin DEFAULT_SETTINGS ∅)
              eq_refl eq_refl) as (_ & _ & _ & Hgen).
  destruct (Hgen eq_refl) as (Hs & Ht).
  cbv zeta. rewrite Ht, Hs. repeat split.
Defined.

Lemma poll_save_failure_witness :
  let w := plugin "" inbox_only in
  let w' := snd (poll (unsaved [report]) w) in
  hidden w = false /\
  retryDelay w' = 20000 /\
  last_saved (trace w') = None /\
  importsThisMonth (settings w') = 1.
Proof.
  split; [reflexivity|].
  destruct (poll_save_failure IsoDate.getTime IsoDate.toISOString (unsaved [report])
              (plugin "" inbox_only) (response [report]) "EACCES: permission denied"
              eq_refl eq_refl eq_refl) as (Hr & Hl & _).
  cbv zeta. split; [exact Hr|]. split; [exact Hl | reflexivity].
Defined.

End FurtherExamples.
